(** * AF_UNIX stream sockets on Windows through Winsock and asyncio

    A shallow embedding of [win_asyncio_afunix.py] and [win_unix_asyncio.py]:
    the ctypes [Sockaddr] record and the way both modules fill it, the
    [AFUnixStream] wrapper, the [AFUnixServerWin] / [WindowsUnixServer]
    listeners with their accept loops, and the two client connectors.

    Native calls ([ws2_32.*], [socket.*], [os.*], the proactor) are effects
    on an explicit [world]; what the operating system answers is read from
    an [Env] record, so that a statement about "every execution" is a
    statement about every [Env] and every initial [world]. *)

From Stdlib Require Import ZArith String.
From stdpp Require Import base option list gmap.

Local Open Scope Z_scope.

(** ** Python values used by the modules *)

(** A Python [str] is a sequence of code points; [bytes] and [bytearray]
    are sequences of 8-bit values. *)
Definition str := list Z.
Definition bytes := list Z.

(** Exceptions the modules raise.  [OSError(err, msg)] carries the native
    error code in [errno]; [OSError(msg)] carries none. *)
Inductive exn :=
| ValueError (msg : string)
| OSError (errno : option Z) (msg : string)
| RuntimeError (msg : string)
| UnicodeEncodeError
| HandlerError (tag : Z).

Inductive result (A : Type) :=
| Ok (a : A)
| Raise (e : exn).
Arguments Ok {A} a.
Arguments Raise {A} e.

(** *** [str.encode("utf-8")], strict error handler *)

Definition utf8_cont (z : Z) : Z := Z.lor 0x80 (Z.land z 0x3F).

Definition utf8_encode_char (c : Z) : option bytes :=
  if c <? 0 then None
  else if c <? 0x80 then Some [c]
  else if c <? 0x800 then
    Some [Z.lor 0xC0 (Z.shiftr c 6); utf8_cont c]
  else if (0xD800 <=? c) && (c <=? 0xDFFF) then None
  else if c <? 0x10000 then
    Some [Z.lor 0xE0 (Z.shiftr c 12); utf8_cont (Z.shiftr c 6); utf8_cont c]
  else if c <? 0x110000 then
    Some [Z.lor 0xF0 (Z.shiftr c 18); utf8_cont (Z.shiftr c 12);
          utf8_cont (Z.shiftr c 6); utf8_cont c]
  else None.

Fixpoint str_encode (s : str) : option bytes :=
  match s with
  | [] => Some []
  | c :: s' =>
      match utf8_encode_char c, str_encode s' with
      | Some b, Some bs => Some (b ++ bs)
      | _, _ => None
      end
  end.

(** *** [bytearray] slice assignment [tmp[i:j] = v] (indices clamp) *)
Definition bytearray_setslice (tmp : bytes) (i j : nat) (v : bytes) : bytes :=
  take i tmp ++ v ++ drop (i `max` j) tmp.

(** ** ctypes: a [c_char * N] field of a [Structure] *)

(** C [strlen] semantics: the bytes before the first NUL. *)
Fixpoint c_str (data : bytes) : bytes :=
  match data with
  | [] => []
  | b :: data' => if b =? 0 then [] else b :: c_str data'
  end.

(** Reading the field gives the bytes up to the first NUL of the buffer. *)
Definition char_array_get (buf : bytes) : bytes := c_str buf.

(** Assigning a [bytes] value copies [strlen(value)] bytes, and the
    terminating NUL when there is room for it; a longer value is refused
    with [ValueError].  The rest of the buffer is left as it was. *)
Definition char_array_set (buf value : bytes) : result bytes :=
  let data := c_str value in
  let size := length data in
  if (size <? length buf)%nat then Ok (data ++ [0] ++ drop (S size) buf)
  else if (length buf <? size)%nat then
    Raise (ValueError "bytes too long")
  else Ok data.

(** ** The address record *)

Definition SUN_PATH_MAX : nat := 108.
Definition UNIX_PATH_MAX : nat := 108.

(** [socket.AF_UNIX], set to 1 by the modules where the runtime lacks it. *)
Definition AF_UNIX : Z := 1.

Record Sockaddr := mkSockaddr {
  sun_family : Z;          (* c_ushort *)
  sun_path : bytes         (* c_char * 108 *)
}.

(** [Sockaddr()]: ctypes zero-initialises a new structure. *)
Definition Sockaddr_new : Sockaddr :=
  {| sun_family := 0; sun_path := replicate SUN_PATH_MAX 0 |}.

(** Storing into a [c_ushort] field keeps the low 16 bits. *)
Definition set_sun_family (a : Sockaddr) (fam : Z) : Sockaddr :=
  {| sun_family := fam mod 65536; sun_path := sun_path a |}.

(** [tmp = bytearray(addr.sun_path); tmp[:len(enc)] = enc;
     addr.sun_path = bytes(tmp)] *)
Definition fill_sun_path (a : Sockaddr) (enc : bytes) : result Sockaddr :=
  let tmp := char_array_get (sun_path a) in
  let tmp := bytearray_setslice tmp 0 (length enc) enc in
  match char_array_set (sun_path a) tmp with
  | Ok p => Ok {| sun_family := sun_family a; sun_path := p |}
  | Raise e => Raise e
  end.

(** The variant of [open_unix_connection], which first inserts
    [UNIX_PATH_MAX] zero bytes into the bytearray:
    [for i in range(UNIX_PATH_MAX): tmp[i:i] = b"\x00"]. *)
Definition insert_zeros (tmp : bytes) : bytes :=
  foldl (fun t i => bytearray_setslice t i i [0]) tmp (seq 0 UNIX_PATH_MAX).

Definition fill_sun_path_cleared (a : Sockaddr) (enc : bytes) : result Sockaddr :=
  let tmp := char_array_get (sun_path a) in
  let tmp := insert_zeros tmp in
  let tmp := bytearray_setslice tmp 0 (length enc) enc in
  match char_array_set (sun_path a) tmp with
  | Ok p => Ok {| sun_family := sun_family a; sun_path := p |}
  | Raise e => Raise e
  end.

(** The address-encoding step as it stands in [AFUnixServerWin.__init__],
    [open_unix_connection_win] and [WindowsUnixServer.start]: build the
    record, encode the path, refuse it when it does not leave room for
    the terminator, copy it in. *)
Definition encode_address (fam : Z) (path : str) : result Sockaddr :=
  let addr := set_sun_family Sockaddr_new fam in
  match str_encode path with
  | None => Raise UnicodeEncodeError
  | Some enc =>
      if (SUN_PATH_MAX <=? length enc)%nat
      then Raise (ValueError "AF_UNIX path too long")
      else fill_sun_path addr enc
  end.

(** The same step in [open_unix_connection]. *)
Definition encode_address_cleared (fam : Z) (path : str) : result Sockaddr :=
  let addr := set_sun_family Sockaddr_new fam in
  match str_encode path with
  | None => Raise UnicodeEncodeError
  | Some enc =>
      if (UNIX_PATH_MAX <=? length enc)%nat
      then Raise (ValueError "socket path too long")
      else fill_sun_path_cleared addr enc
  end.

(** ** The world the modules act on *)

(** Winsock constants of the modules. *)
Definition FD_READ : Z := 0x01.
Definition FD_WRITE : Z := 0x02.
Definition FD_OOB : Z := 0x04.
Definition FD_ACCEPT : Z := 0x08.
Definition FD_CONNECT : Z := 0x10.
Definition FD_CLOSE : Z := 0x20.
Definition FD_CONNECT_BIT : nat := 4.
Definition FD_CLOSE_BIT : nat := 5.
Definition WSAEWOULDBLOCK : Z := 10035.
Definition WSAEADDRINUSE : Z := 10048.

Record WSANETWORKEVENTS := mkEvents {
  lNetworkEvents : Z;
  iErrorCode : list Z      (* c_int * 10 *)
}.

Record AFUnixStream := mkStream {
  st_sock : Z;
  st_closed : bool
}.

(** Coroutine objects handed to the scheduler. *)
Inductive coro :=
| accept_loop_coro (listener : Z)
| handler_coro (conn : Z).

(** Native functions whose answer is the operating system's. *)
Inductive call :=
| c_socket | c_setblocking | c_WSAStartup
| c_WSACreateEvent | c_WSAEventSelect | c_WSAEnumNetworkEvents
| c_WSAGetLastError | c_bind | c_listen | c_connect
| c_wait_for_handle | c_shutdown | c_unlink
| c_wrap | c_connect_accepted_socket | c_py_connect
| c_sock_recv | c_sock_sendall.

(** What the program did, oldest first. *)
Inductive event :=
| e_socket (h : Z)
| e_ws2_socket (h : Z)
| e_setblocking (h : Z) (flag : bool)
| e_WSAStartup (ret : Z)
| e_WSACreateEvent (ev : Z)
| e_WSAEventSelect (s ev mask ret : Z)
| e_WSAEnumNetworkEvents (s ev ret : Z) (ne : WSANETWORKEVENTS)
| e_WSAResetEvent (ev : Z)
| e_WSACloseEvent (ev : Z)
| e_WSAGetLastError (err : Z)
| e_bind (s : Z) (addr : Sockaddr) (ret : Z)
| e_listen (s backlog ret : Z)
| e_connect (s : Z) (addr : Sockaddr) (ret : Z)
| e_py_connect (s : Z) (path : str) (ret : Z)
| e_accept (s ret : Z)
| e_wait (ev ret : Z)
| e_sleep
| e_sock_close (h : Z)
| e_closesocket (h : Z)
| e_CloseHandle (h : Z)
| e_shutdown (h ret : Z)
| e_unlink (path : str) (ret : Z)
| e_wrap (fd ret : Z)
| e_connect_accepted_socket (h ret : Z)
| e_callback (s : AFUnixStream)
| e_create_task (c : coro)
| e_sock_recv (h : Z) (n : Z) (data : bytes)
| e_sock_sendall (h : Z) (data : bytes) (ret : Z).

(** The environment: the answer of each native call, as a function of
    the call and of the number of events before it; the network events
    [WSAEnumNetworkEvents] reports; what the peer sends; the interpreter
    and event loop the program runs on. *)
Record Env := mkEnv {
  answer : call -> nat -> Z;
  net_events : nat -> WSANETWORKEVENTS;
  incoming : nat -> bytes;
  module_AF_UNIX : option Z;       (* socket.AF_UNIX, where the runtime has it *)
  has_proactor : bool;             (* the loop has a _proactor attribute *)
  PTR_SIZE : Z                     (* sizeof(c_void_p) *)
}.

Record world := mkWorld {
  files : gset bytes;        (* filesystem entries, by encoded path *)
  sockets : gset Z;          (* open socket handles *)
  wsa_events : gset Z;       (* live WSA event objects *)
  pending : list Z;          (* connections queued on the listener: the
                                SOCKET values accept will return, in order *)
  tasks : list coro;         (* tasks created on the loop, oldest first *)
  wsa_started : bool;        (* the module global _wsa_started *)
  trace : list event
}.

Definition set_files (f : gset bytes -> gset bytes) (w : world) : world :=
  mkWorld (f (files w)) (sockets w) (wsa_events w) (pending w) (tasks w)
          (wsa_started w) (trace w).
Definition set_sockets (f : gset Z -> gset Z) (w : world) : world :=
  mkWorld (files w) (f (sockets w)) (wsa_events w) (pending w) (tasks w)
          (wsa_started w) (trace w).
Definition set_wsa_events (f : gset Z -> gset Z) (w : world) : world :=
  mkWorld (files w) (sockets w) (f (wsa_events w)) (pending w) (tasks w)
          (wsa_started w) (trace w).
Definition set_pending (q : list Z) (w : world) : world :=
  mkWorld (files w) (sockets w) (wsa_events w) q (tasks w)
          (wsa_started w) (trace w).
Definition add_task (c : coro) (w : world) : world :=
  mkWorld (files w) (sockets w) (wsa_events w) (pending w) (tasks w ++ [c])
          (wsa_started w) (trace w).
Definition set_wsa_started (b : bool) (w : world) : world :=
  mkWorld (files w) (sockets w) (wsa_events w) (pending w) (tasks w)
          b (trace w).
Definition log (e : event) (w : world) : world :=
  mkWorld (files w) (sockets w) (wsa_events w) (pending w) (tasks w)
          (wsa_started w) (trace w ++ [e]).

(** ** A state and exception monad over the world

    A computation ends with a value, with a raised exception, or is
    still running when its loop bound is used up ([Running]). *)
Inductive outcome (A : Type) :=
| Done (a : A)
| Raised (e : exn)
| Running.
Arguments Done {A} a.
Arguments Raised {A} e.
Arguments Running {A}.

Definition M (A : Type) : Type := world -> outcome A * world.

Definition ret {A} (a : A) : M A := fun w => (Done a, w).
Definition raise {A} (e : exn) : M A := fun w => (Raised e, w).
Definition bind {A B} (m : M A) (k : A -> M B) : M B :=
  fun w =>
    match m w with
    | (Done a, w') => k a w'
    | (Raised e, w') => (Raised e, w')
    | (Running, w') => (Running, w')
    end.

Declare Scope py_scope.
Delimit Scope py_scope with py.
Notation "x <- m ;; k" := (bind m (fun x => k))
  (at level 100, m at next level, right associativity) : py_scope.
Notation "m ;; k" := (bind m (fun _ => k))
  (at level 100, right associativity) : py_scope.
Local Open Scope py_scope.

Definition lift {A} (r : result A) : M A :=
  match r with
  | Ok a => ret a
  | Raise e => raise e
  end.

Definition get_world : M world := fun w => (Done w, w).
Definition modify (f : world -> world) : M unit := fun w => (Done tt, f w).

(** [try: body finally: fin] *)
Definition try_finally {A} (body : M A) (fin : M unit) : M A :=
  fun w =>
    match body w with
    | (Running, w') => (Running, w')
    | (r, w') =>
        match fin w' with
        | (Done _, w'') => (r, w'')
        | (Raised e, w'') => (Raised e, w'')
        | (Running, w'') => (Running, w'')
        end
    end.

(** [try: body except <class>: handler] *)
Definition try_except {A} (body : M A) (catches : exn -> bool)
    (handler : exn -> M A) : M A :=
  fun w =>
    match body w with
    | (Raised e, w') => if catches e then handler e w' else (Raised e, w')
    | r => r
    end.

Definition is_OSError (e : exn) : bool :=
  match e with OSError _ _ => true | _ => false end.
(** Every exception of the model is an [Exception]. *)
Definition is_Exception (e : exn) : bool := true.

Section Program.

Variable E : Env.

(** ** Native calls *)

(** [SOCKET_T(-1).value]: all ones in the width of a pointer. *)
Definition INVALID_SOCKET : Z :=
  if PTR_SIZE E =? 8 then 2 ^ 64 - 1 else 2 ^ 32 - 1.

(** ctypes conversion of a native return value to [c_int]. *)
Definition to_c_int (v : Z) : Z := (v + 2 ^ 31) mod 2 ^ 32 - 2 ^ 31.

(** [socket.AF_UNIX] after [if not hasattr(socket, "AF_UNIX"):
    socket.AF_UNIX = 1], which is [getattr(socket, "AF_UNIX", 1)]. *)
Definition socket_AF_UNIX : Z := default AF_UNIX (module_AF_UNIX E).

Definition now (w : world) : nat := length (trace w).

Definition native (c : call) : M Z :=
  fun w => (Done (answer E c (now w)), w).

Definition emit (e : event) : M unit := modify (log e).

(** [socket.socket(family, SOCK_STREAM)] *)
Definition socket_socket (family : Z) : M Z :=
  h <- native c_socket ;;
  emit (e_socket h) ;;
  if h <? 0 then raise (OSError None "socket")
  else modify (set_sockets (union {[h]})) ;; ret h.

(** [ws2_32.socket(family, SOCK_STREAM, 0)] *)
Definition ws2_32_socket (family : Z) : M Z :=
  h <- native c_socket ;;
  emit (e_ws2_socket h) ;;
  (if (h =? 0) || (h =? -1) then ret tt
   else modify (set_sockets (union {[h]}))) ;;
  ret h.

(** [sock.fileno()]: the handle, or -1 once the socket is closed. *)
Definition sock_fileno (h : Z) : M Z :=
  w <- get_world ;;
  ret (if bool_decide (h ∈ sockets w) then h else -1).

Definition sock_setblocking (h : Z) (flag : bool) : M unit :=
  emit (e_setblocking h flag).

(** [sock.close()]: releases the handle; a second close does nothing.
    The release itself is taken not to fail. *)
Definition sock_close (h : Z) : M unit :=
  w <- get_world ;;
  if bool_decide (h ∈ sockets w) then
    emit (e_sock_close h) ;;
    modify (set_sockets (fun s => s ∖ {[h]}))
  else ret tt.

(** [ws2_32.closesocket(h)] *)
Definition ws2_32_closesocket (h : Z) : M unit :=
  emit (e_closesocket h) ;;
  modify (set_sockets (fun s => s ∖ {[h]})).

(** [kernel32.CloseHandle(h)] *)
Definition CloseHandle (h : Z) : M unit :=
  emit (e_CloseHandle h) ;;
  modify (set_sockets (fun s => s ∖ {[h]})).

(** [sock.shutdown(SHUT_RDWR)] *)
Definition sock_shutdown (h : Z) : M unit :=
  w <- get_world ;;
  if bool_decide (h ∈ sockets w) then
    r <- native c_shutdown ;;
    emit (e_shutdown h r) ;;
    if r =? 0 then ret tt else raise (OSError (Some r) "shutdown")
  else raise (OSError (Some 9) "Bad file descriptor").

Definition sock_listen (h backlog : Z) : M unit :=
  r <- native c_listen ;;
  emit (e_listen h backlog r) ;;
  if r =? 0 then ret tt else raise (OSError (Some r) "listen").

(** [sock.connect(path)] of the runtime's own AF_UNIX support *)
Definition sock_connect (h : Z) (path : str) : M unit :=
  r <- native c_py_connect ;;
  emit (e_py_connect h path r) ;;
  if r =? 0 then ret tt else raise (OSError (Some r) "connect").

(** [socket.socket(fileno=fd)] *)
Definition socket_from_fileno (fd : Z) : M Z :=
  r <- native c_wrap ;;
  emit (e_wrap fd r) ;;
  if r =? 0 then ret fd else raise (OSError (Some r) "socket(fileno)").

Definition WSAStartup : M Z :=
  r <- native c_WSAStartup ;; emit (e_WSAStartup r) ;; ret r.

Definition WSACreateEvent : M Z :=
  ev <- native c_WSACreateEvent ;;
  emit (e_WSACreateEvent ev) ;;
  (if ev =? 0 then ret tt else modify (set_wsa_events (union {[ev]}))) ;;
  ret ev.

Definition WSACloseEvent (ev : Z) : M unit :=
  emit (e_WSACloseEvent ev) ;;
  modify (set_wsa_events (fun s => s ∖ {[ev]})).

Definition WSAResetEvent (ev : Z) : M unit := emit (e_WSAResetEvent ev).

Definition WSAEventSelect (s ev mask : Z) : M Z :=
  r <- native c_WSAEventSelect ;;
  emit (e_WSAEventSelect s ev mask r) ;;
  ret r.

Definition WSAEnumNetworkEvents (s ev : Z) : M (Z * WSANETWORKEVENTS) :=
  r <- native c_WSAEnumNetworkEvents ;;
  w <- get_world ;;
  let ne := net_events E (now w) in
  emit (e_WSAEnumNetworkEvents s ev r ne) ;;
  ret (r, ne).

Definition WSAGetLastError : M Z :=
  err <- native c_WSAGetLastError ;;
  emit (e_WSAGetLastError err) ;;
  ret err.

(** [ws2_32.bind]: refused while the path names an existing filesystem
    entry; a successful bind creates the entry. *)
Definition ws2_32_bind (s : Z) (addr : Sockaddr) : M Z :=
  w <- get_world ;;
  let key := c_str (sun_path addr) in
  if bool_decide (key ∈ files w) then
    emit (e_bind s addr (-1)) ;; ret (-1)
  else
    r <- native c_bind ;;
    emit (e_bind s addr r) ;;
    (if r =? 0 then modify (set_files (union {[key]})) else ret tt) ;;
    ret r.

Definition ws2_32_connect (s : Z) (addr : Sockaddr) : M Z :=
  r <- native c_connect ;;
  emit (e_connect s addr r) ;;
  ret r.

(** [ws2_32.accept]: the next queued connection, [INVALID_SOCKET] when
    none is queued. *)
Definition ws2_32_accept (s : Z) : M Z :=
  w <- get_world ;;
  match pending w with
  | [] => emit (e_accept s INVALID_SOCKET) ;; ret INVALID_SOCKET
  | h :: q =>
      modify (set_pending q) ;;
      emit (e_accept s h) ;;
      (if h =? INVALID_SOCKET then ret tt
       else modify (set_sockets (union {[h]}))) ;;
      ret h
  end.

(** [await proactor.wait_for_handle(ev)]: the task is suspended here. *)
Definition wait_for_handle (ev : Z) : M unit :=
  r <- native c_wait_for_handle ;;
  emit (e_wait ev r) ;;
  if r =? 0 then ret tt else raise (OSError (Some r) "wait_for_handle").

(** [await asyncio.sleep(_)] *)
Definition asyncio_sleep : M unit := emit e_sleep.

(** [asyncio.create_task(coro)] / [loop.create_task(coro)] *)
Definition create_task (c : coro) : M coro :=
  emit (e_create_task c) ;; modify (add_task c) ;; ret c.

(** [await loop.connect_accepted_socket(lambda: protocol, sock)] *)
Definition connect_accepted_socket (h : Z) : M unit :=
  r <- native c_connect_accepted_socket ;;
  emit (e_connect_accepted_socket h r) ;;
  if r =? 0 then ret tt else raise (OSError (Some r) "connect_accepted_socket").

(** [await loop.sock_recv(sock, n)] *)
Definition loop_sock_recv (h : Z) (n : nat) : M bytes :=
  r <- native c_sock_recv ;;
  w <- get_world ;;
  if r =? 0 then
    let data := take n (incoming E (now w)) in
    emit (e_sock_recv h (Z.of_nat n) data) ;; ret data
  else raise (OSError (Some r) "recv").

(** [await loop.sock_sendall(sock, data)] *)
Definition loop_sock_sendall (h : Z) (data : bytes) : M unit :=
  r <- native c_sock_sendall ;;
  emit (e_sock_sendall h data r) ;;
  if r =? 0 then ret tt else raise (OSError (Some r) "send").

(** [os.path.exists(path)] *)
Definition os_path_exists (path : str) : M bool :=
  w <- get_world ;;
  ret (match str_encode path with
       | Some enc => bool_decide (0 ∉ enc) && bool_decide (enc ∈ files w)
       | None => false
       end).

(** [os.unlink(path)] *)
Definition os_unlink (path : str) : M unit :=
  match str_encode path with
  | None => raise UnicodeEncodeError
  | Some enc =>
      r <- native c_unlink ;;
      emit (e_unlink path r) ;;
      w <- get_world ;;
      if negb (r =? 0) then raise (OSError (Some r) "unlink")
      else if bool_decide (enc ∈ files w)
      then modify (set_files (fun s => s ∖ {[enc]}))
      else raise (OSError (Some 2) "No such file or directory")
  end.

(** [_check_zero(ret, what)] *)
Definition _check_zero (r : Z) (what : string) : M unit :=
  if negb (r =? 0) then
    err <- WSAGetLastError ;;
    raise (OSError (Some err) what)
  else ret tt.

(** ** [AFUnixStream] *)

Definition AFUnixStream_init (sock : Z) : AFUnixStream :=
  {| st_sock := sock; st_closed := false |}.

Definition AFUnixStream_recv (self : AFUnixStream) (n : nat) : M bytes :=
  if st_closed self then ret []
  else loop_sock_recv (st_sock self) n.

Definition AFUnixStream_sendall (self : AFUnixStream) (data : bytes) : M unit :=
  if st_closed self then raise (RuntimeError "sendall on closed AFUnixStream")
  else loop_sock_sendall (st_sock self) data.

(** [close] returns the object as the call leaves it. *)
Definition AFUnixStream_close (self : AFUnixStream) : M AFUnixStream :=
  if negb (st_closed self) then
    try_except (sock_shutdown (st_sock self)) is_OSError (fun _ => ret tt) ;;
    sock_close (st_sock self) ;;
    ret {| st_sock := st_sock self; st_closed := true |}
  else ret self.

(** A computation whose loop bound is used up. *)
Definition running {A} : M A := fun w => (Running, w).

Inductive loop_ctl := Continue | Break.

(** ** [AFUnixServerWin] *)

Record AFUnixServerWin := mkServer {
  srv_path : str;
  srv_backlog : Z;
  srv_unlink_existing : bool;
  srv_task : option coro;
  srv_closed : bool;
  srv_sock : Z;
  srv_accept_event : option Z
}.

Definition set_srv_task (t : option coro) (s : AFUnixServerWin) :=
  mkServer (srv_path s) (srv_backlog s) (srv_unlink_existing s) t
           (srv_closed s) (srv_sock s) (srv_accept_event s).

Definition AFUnixServerWin_init (path : str) (backlog : Z)
    (unlink_existing : bool) : M AFUnixServerWin :=
  ex <- (if unlink_existing then os_path_exists path else ret false) ;;
  (if ex then os_unlink path else ret tt) ;;
  sock <- socket_socket socket_AF_UNIX ;;
  sock_setblocking sock false ;;
  addr <- lift (encode_address socket_AF_UNIX path) ;;
  fd <- sock_fileno sock ;;
  r <- ws2_32_bind fd addr ;;
  (if negb (r =? 0) then
     err <- WSAGetLastError ;;
     raise (OSError (Some err) "ws2_32.bind failed")
   else ret tt) ;;
  sock_listen sock backlog ;;
  ev <- WSACreateEvent ;;
  (if ev =? 0 then raise (OSError None "WSACreateEvent failed") else ret tt) ;;
  fd <- sock_fileno sock ;;
  r <- WSAEventSelect fd ev (Z.lor FD_ACCEPT FD_CLOSE) ;;
  _check_zero r "WSAEventSelect(FD_ACCEPT|FD_CLOSE)" ;;
  ret {| srv_path := path; srv_backlog := backlog;
         srv_unlink_existing := unlink_existing;
         srv_task := None; srv_closed := false;
         srv_sock := sock; srv_accept_event := Some ev |}.

Definition AFUnixServerWin_start (self : AFUnixServerWin) : M AFUnixServerWin :=
  match srv_task self with
  | Some _ => raise (RuntimeError "Server already started")
  | None =>
      t <- create_task (accept_loop_coro (srv_sock self)) ;;
      ret (set_srv_task (Some t) self)
  end.

(** The caller's [client_connected_cb(stream)]: it raises, or returns a
    coroutine object, or returns something that is not a coroutine. *)
Definition callback := AFUnixStream -> result (option coro).

Definition call_cb (cb : callback) (stream : AFUnixStream) : M (option coro) :=
  emit (e_callback stream) ;; lift (cb stream).

(** One accepted connection: wrap, build the stream, dispatch. *)
Definition accept_one (self : AFUnixServerWin) (cb : callback)
    (client_fd : Z) : M unit :=
  client <- socket_from_fileno client_fd ;;
  sock_setblocking client false ;;
  let stream := AFUnixStream_init client in
  try_except
    (res <- call_cb cb stream ;;
     match res with
     | Some c => create_task c ;; ret tt
     | None => ret tt
     end)
    is_Exception
    (fun e => AFUnixStream_close stream ;; raise e).

(** [while True: client_fd = ws2_32.accept(...); if client_fd ==
    INVALID_SOCKET: break; ...] *)
Fixpoint accept_all (fuel : nat) (self : AFUnixServerWin) (cb : callback)
    : M unit :=
  match fuel with
  | O => running
  | S n =>
      fd <- sock_fileno (srv_sock self) ;;
      client_fd <- ws2_32_accept fd ;;
      if client_fd =? INVALID_SOCKET then ret tt
      else accept_one self cb client_fd ;; accept_all n self cb
  end.

(** The body of [while not self._closed:], one wake-up of the loop. *)
Definition accept_wakeup (k : nat) (self : AFUnixServerWin) (cb : callback)
    : M loop_ctl :=
  let ev := default 0 (srv_accept_event self) in
  wait_for_handle ev ;;
  fd <- sock_fileno (srv_sock self) ;;
  re <- WSAEnumNetworkEvents fd ev ;;
  _check_zero (fst re) "WSAEnumNetworkEvents" ;;
  if negb (Z.land (lNetworkEvents (snd re)) FD_CLOSE =? 0) then ret Break
  else
    (if negb (Z.land (lNetworkEvents (snd re)) FD_ACCEPT =? 0)
     then accept_all k self cb else ret tt) ;;
    ret Continue.

Fixpoint accept_while (k fuel : nat) (self : AFUnixServerWin) (cb : callback)
    : M unit :=
  match fuel with
  | O => running
  | S n =>
      if negb (srv_closed self) then
        ctl <- accept_wakeup k self cb ;;
        match ctl with
        | Break => ret tt
        | Continue => accept_while k n self cb
        end
      else ret tt
  end.

Definition AFUnixServerWin_accept_loop (fuel : nat) (self : AFUnixServerWin)
    (cb : callback) : M unit :=
  if has_proactor E then
    try_finally
      (accept_while fuel fuel self cb)
      (try_except (WSAResetEvent (default 0 (srv_accept_event self)))
                  is_Exception (fun _ => ret tt))
  else raise (RuntimeError "This event loop does not expose a proactor.").

Definition AFUnixServerWin_close (self : AFUnixServerWin) : M AFUnixServerWin :=
  try_finally
    (sock_close (srv_sock self))
    (match srv_accept_event self with
     | Some ev =>
         if negb (ev =? 0) then
           try_except (WSACloseEvent ev) is_Exception (fun _ => ret tt)
         else ret tt
     | None => ret tt
     end) ;;
  (if srv_unlink_existing self then
     try_except
       (ex <- os_path_exists (srv_path self) ;;
        if ex then os_unlink (srv_path self) else ret tt)
       is_OSError (fun _ => ret tt)
   else ret tt) ;;
  ret (mkServer (srv_path self) (srv_backlog self) (srv_unlink_existing self)
                (srv_task self) true (srv_sock self) None).

(** ** [open_unix_connection_win] *)

(** Lines 268-277: the address, closing the socket on a long path. *)
Definition win_address_step (sock : Z) (path : str) : M Sockaddr :=
  let addr := set_sun_family Sockaddr_new socket_AF_UNIX in
  match str_encode path with
  | None => raise UnicodeEncodeError
  | Some enc =>
      if (SUN_PATH_MAX <=? length enc)%nat then
        sock_close sock ;;
        raise (ValueError "AF_UNIX path too long")
      else lift (fill_sun_path addr enc)
  end.

(** Lines 279-285: the native connect. *)
Definition win_connect_step (sock : Z) (addr : Sockaddr) : M unit :=
  fd <- sock_fileno sock ;;
  r <- ws2_32_connect fd addr ;;
  if negb (r =? 0) then
    err <- WSAGetLastError ;;
    if negb (err =? 10035) then
      sock_close sock ;;
      raise (OSError (Some err) "ws2_32.connect failed")
    else ret tt
  else ret tt.

(** Lines 287-302: wait for FD_CONNECT / FD_CLOSE and read the outcome. *)
Definition win_await_step (sock connect_event : Z) : M unit :=
  (if has_proactor E then ret tt
   else sock_close sock ;;
        raise (RuntimeError "This event loop does not expose a proactor.")) ;;
  wait_for_handle connect_event ;;
  fd <- sock_fileno sock ;;
  re <- WSAEnumNetworkEvents fd connect_event ;;
  _check_zero (fst re) "WSAEnumNetworkEvents(connect)" ;;
  if negb (Z.land (lNetworkEvents (snd re)) FD_CONNECT =? 0) then
    let err := nth FD_CONNECT_BIT (iErrorCode (snd re)) 0 in
    if negb (err =? 0) then
      sock_close sock ;;
      raise (OSError (Some err) "connect failed")
    else ret tt
  else ret tt.

Definition open_unix_connection_win (path : str) : M AFUnixStream :=
  sock <- socket_socket socket_AF_UNIX ;;
  sock_setblocking sock false ;;
  connect_event <- WSACreateEvent ;;
  if connect_event =? 0 then
    sock_close sock ;;
    raise (OSError None "WSACreateEvent failed for connect")
  else
    try_finally
      (fd <- sock_fileno sock ;;
       r <- WSAEventSelect fd connect_event (Z.lor FD_CONNECT FD_CLOSE) ;;
       _check_zero r "WSAEventSelect(FD_CONNECT|FD_CLOSE)" ;;
       addr <- win_address_step sock path ;;
       win_connect_step sock addr ;;
       win_await_step sock connect_event ;;
       ret (AFUnixStream_init sock))
      (if negb (connect_event =? 0) then
         try_except (WSACloseEvent connect_event) is_Exception (fun _ => ret tt)
       else ret tt).

(** ** [win_unix_asyncio]: [WindowsUnixServer] and [open_unix_connection] *)

Definition ensure_wsa_started : M unit :=
  w <- get_world ;;
  if wsa_started w then ret tt
  else
    r <- WSAStartup ;;
    if negb (r =? 0) then raise (OSError None "WSAStartup failed")
    else modify (set_wsa_started true).

Record WindowsUnixServer := mkWUServer {
  wus_path : str;
  wus_sock : option Z;
  wus_running : bool;
  wus_task : option coro
}.

Definition WindowsUnixServer_init (path : str) : M WindowsUnixServer :=
  if has_proactor E then
    ret {| wus_path := path; wus_sock := None;
           wus_running := false; wus_task := None |}
  else raise (RuntimeError "This helper requires an asyncio ProactorEventLoop (Windows).").

Definition WindowsUnixServer_start (self : WindowsUnixServer)
    : M WindowsUnixServer :=
  ensure_wsa_started ;;
  ex <- os_path_exists (wus_path self) ;;
  (if ex then
     try_except (os_unlink (wus_path self)) is_Exception (fun _ => ret tt)
   else ret tt) ;;
  let fam := socket_AF_UNIX in
  serv <- socket_socket fam ;;
  sock_setblocking serv false ;;
  sockaddr <- lift (encode_address fam (wus_path self)) ;;
  fd <- sock_fileno serv ;;
  r <- ws2_32_bind fd sockaddr ;;
  (if negb (r =? 0) then raise (OSError None "bind failed") else ret tt) ;;
  sock_listen serv 5 ;;
  t <- create_task (accept_loop_coro serv) ;;
  ret {| wus_path := wus_path self; wus_sock := Some serv;
         wus_running := true; wus_task := Some t |}.

(** The caller's [client_connected_cb(reader, writer)], by the socket
    underneath the pair. *)
Definition stream_callback := Z -> result coro.

(** The body of [while self._running:], one turn of the loop. *)
Definition wus_accept_turn (serv : Z) (cb : stream_callback) : M loop_ctl :=
  ev <- WSACreateEvent ;;
  if ev =? 0 then asyncio_sleep ;; ret Continue
  else
    fd <- sock_fileno serv ;;
    WSAEventSelect fd ev FD_ACCEPT ;;
    waited <- try_except (wait_for_handle ev ;; ret true) is_Exception
                (fun _ => WSAResetEvent ev ;; ret false) ;;
    if negb waited then ret Break
    else
      try_except (WSAResetEvent ev) is_Exception (fun _ => ret tt) ;;
      fd <- sock_fileno serv ;;
      raw <- ws2_32_accept fd ;;
      let client_fileno := to_c_int raw in
      if (client_fileno =? -1) || (client_fileno =? 0) then
        asyncio_sleep ;; ret Continue
      else
        wrapped <- try_except
                     (client_sock <- socket_from_fileno client_fileno ;;
                      sock_setblocking client_sock false ;;
                      ret (Some client_sock))
                     is_Exception
                     (fun _ =>
                        try_except (CloseHandle client_fileno) is_Exception
                                   (fun _ => ret tt) ;;
                        ret None) ;;
        match wrapped with
        | None => ret Continue
        | Some client_sock =>
            ok <- try_except (connect_accepted_socket client_sock ;; ret true)
                    is_Exception
                    (fun _ => sock_close client_sock ;; ret false) ;;
            if negb ok then ret Continue
            else
              c <- lift (cb client_sock) ;;
              create_task c ;;
              ret Continue
        end.

Fixpoint wus_accept_while (fuel : nat) (self : WindowsUnixServer)
    (cb : stream_callback) : M unit :=
  match fuel with
  | O => running
  | S n =>
      if wus_running self then
        ctl <- wus_accept_turn (default 0 (wus_sock self)) cb ;;
        match ctl with
        | Break => ret tt
        | Continue => wus_accept_while n self cb
        end
      else ret tt
  end.

Definition WindowsUnixServer_accept_loop (fuel : nat)
    (self : WindowsUnixServer) (cb : stream_callback) : M unit :=
  wus_accept_while fuel self cb.

(** Lines 283-296: the address, closing the handle on a long path. *)
Definition unix_address_step (s_handle : Z) (path : str) : M Sockaddr :=
  let sockaddr := set_sun_family Sockaddr_new socket_AF_UNIX in
  match str_encode path with
  | None => raise UnicodeEncodeError
  | Some enc =>
      if (UNIX_PATH_MAX <=? length enc)%nat then
        ws2_32_closesocket s_handle ;;
        raise (ValueError "socket path too long")
      else lift (fill_sun_path_cleared sockaddr enc)
  end.

(** Lines 299-303: the native connect. *)
Definition unix_connect_step (s_handle : Z) (sockaddr : Sockaddr) : M unit :=
  r <- ws2_32_connect s_handle sockaddr ;;
  if negb (r =? 0) then
    err <- WSAGetLastError ;;
    ws2_32_closesocket s_handle ;;
    raise (OSError None "ws2_32.connect failed")
  else ret tt.

(** Lines 256-272: the runtime's own AF_UNIX, tried first. *)
Definition unix_native_attempt (path : str) : M (option Z) :=
  match module_AF_UNIX E with
  | Some fam =>
      try_except
        (sock <- socket_socket fam ;;
         try_except
           (sock_connect sock path ;;
            sock_setblocking sock false ;;
            connect_accepted_socket sock ;;
            ret (Some sock))
           is_Exception
           (fun _ =>
              try_except (sock_close sock) is_Exception (fun _ => ret tt) ;;
              ret None))
        is_Exception (fun _ => ret None)
  | None => ret None
  end.

(** Lines 275-321: the Winsock path.  The result is the socket under the
    [(reader, writer)] pair. *)
Definition unix_winsock_connect (path : str) : M Z :=
  s_handle <- ws2_32_socket socket_AF_UNIX ;;
  (if (s_handle =? 0) || (s_handle =? -1) then
     err <- WSAGetLastError ;;
     raise (OSError None "WSA socket() failed")
   else ret tt) ;;
  sockaddr <- unix_address_step s_handle path ;;
  unix_connect_step s_handle sockaddr ;;
  py_sock <- try_except
               (p <- socket_from_fileno s_handle ;;
                sock_setblocking p false ;;
                ret p)
               is_Exception
               (fun e =>
                  try_except (ws2_32_closesocket s_handle) is_Exception
                             (fun _ => ret tt) ;;
                  raise e) ;;
  connect_accepted_socket py_sock ;;
  ret py_sock.

Definition open_unix_connection (path : str) : M Z :=
  ensure_wsa_started ;;
  r <- unix_native_attempt path ;;
  match r with
  | Some sock => ret sock
  | None => unix_winsock_connect path
  end.

End Program.

(** ** The rest of the two modules and [example_echo] *)

Section Callers.

Variable E : Env.

(** [_check_socket(res, what)] *)
Definition _check_socket (res : Z) (what : string) : M unit :=
  if res =? INVALID_SOCKET E then
    err <- WSAGetLastError E ;;
    raise (OSError (Some err) what)
  else ret tt.

(** [AFUnixStream.wait_closed]: [await asyncio.sleep(0)] *)
Definition AFUnixStream_wait_closed (self : AFUnixStream) : M unit :=
  asyncio_sleep.

(** [AFUnixStream.__aenter__] *)
Definition AFUnixStream_aenter (self : AFUnixStream) : M AFUnixStream :=
  ret self.

(** [AFUnixStream.__aexit__(exc_type, exc, tb)]: the arguments are not
    looked at. *)
Definition AFUnixStream_aexit (self : AFUnixStream) : M AFUnixStream :=
  self' <- AFUnixStream_close E self ;;
  AFUnixStream_wait_closed self' ;;
  ret self'.

(** [start_unix_server_win(path, client_connected_cb, backlog=...,
    unlink_existing=...)] *)
Definition start_unix_server_win (path : str) (backlog : Z)
    (unlink_existing : bool) : M AFUnixServerWin :=
  srv <- AFUnixServerWin_init E path backlog unlink_existing ;;
  AFUnixServerWin_start srv.

(** [start_unix_server(client_connected_cb, path, loop)] of
    [win_unix_asyncio] *)
Definition start_unix_server (path : str) : M WindowsUnixServer :=
  srv <- WindowsUnixServer_init E path ;;
  WindowsUnixServer_start E srv.

(** *** [example_echo] *)

(** [str(Path("./server.sock"))] *)
Definition SOCKET_PATH : str :=
  [115; 101; 114; 118; 101; 114; 46; 115; 111; 99; 107].

(** [b"echo:"] *)
Definition echo_prefix : bytes := [101; 99; 104; 111; 58].

(** The [while True:] of [handle_client]; [print] writes to the console
    and leaves the world of sockets alone. *)
Fixpoint handle_client_loop (fuel : nat) (stream : AFUnixStream) : M unit :=
  match fuel with
  | O => running
  | S n =>
      data <- AFUnixStream_recv E stream 4096 ;;
      match data with
      | [] => ret tt
      | _ :: _ =>
          AFUnixStream_sendall E stream (echo_prefix ++ data) ;;
          handle_client_loop n stream
      end
  end.

Definition handle_client (fuel : nat) (stream : AFUnixStream) : M unit :=
  try_finally
    (handle_client_loop fuel stream)
    (AFUnixStream_close E stream ;; ret tt).

(** [run_client(msg)]; the result is what the client printed. *)
Definition run_client (msg : str) : M bytes :=
  stream <- open_unix_connection_win E SOCKET_PATH ;;
  payload <- lift (match str_encode msg with
                   | Some b => Ok b
                   | None => Raise UnicodeEncodeError
                   end) ;;
  AFUnixStream_sendall E stream payload ;;
  data <- AFUnixStream_recv E stream 4096 ;;
  AFUnixStream_close E stream ;;
  ret data.

End Callers.

(** ** Vocabulary of the statements *)

(** The record a successful encoding produces: the C string of the
    encoded path, zeros up to the capacity. *)
Definition padded (fam : Z) (enc : bytes) : Sockaddr :=
  {| sun_family := fam mod 65536;
     sun_path := c_str enc ++ replicate (SUN_PATH_MAX - length (c_str enc)) 0 |}.

(** [n] calls of [start] on one server object, one after the other; a
    call that raises leaves the object as it was. *)
Fixpoint start_calls (n : nat) (self : AFUnixServerWin) (w : world)
    : AFUnixServerWin * world :=
  match n with
  | O => (self, w)
  | S k =>
      match AFUnixServerWin_start self w with
      | (Done self', w') => start_calls k self' w'
      | (_, w') => start_calls k self w'
      end
  end.

(** Suspension on a readiness event. *)
Definition is_wait (e : event) : bool :=
  match e with e_wait _ _ => true | _ => false end.

(** Concrete environments: each native call has a fixed answer. *)
Definition env_with (f : call -> Z) (ne : WSANETWORKEVENTS) : Env :=
  mkEnv (fun c _ => f c) (fun _ => ne) (fun _ => []) None true 8.

Definition connect_done : WSANETWORKEVENTS :=
  {| lNetworkEvents := FD_CONNECT; iErrorCode := replicate 10 0 |}.

(** Everything succeeds; the socket is handle 5, the event handle 9. *)
Definition env_nominal : Env :=
  env_with (fun c => match c with
                     | c_socket => 5 | c_WSACreateEvent => 9 | _ => 0
                     end) connect_done.

(** The native connect reports WSAEWOULDBLOCK. *)
Definition env_would_block : Env :=
  env_with (fun c => match c with
                     | c_socket => 5 | c_WSACreateEvent => 9
                     | c_connect => -1 | c_WSAGetLastError => 10035
                     | _ => 0
                     end) connect_done.

(** [WSAEventSelect] fails with WSAENOTSOCK. *)
Definition env_select_fails : Env :=
  env_with (fun c => match c with
                     | c_socket => 5 | c_WSACreateEvent => 9
                     | c_WSAEventSelect => -1 | c_WSAGetLastError => 10038
                     | _ => 0
                     end) connect_done.

(** [WSAEnumNetworkEvents] fails with WSAENETDOWN. *)
Definition env_enum_fails : Env :=
  env_with (fun c => match c with
                     | c_socket => 5 | c_WSACreateEvent => 9
                     | c_WSAEnumNetworkEvents => -1
                     | c_WSAGetLastError => 10050
                     | _ => 0
                     end) connect_done.

Definition world0 : world := mkWorld ∅ ∅ ∅ [] [] false [].

Definition is_accept (e : event) : bool :=
  match e with e_accept _ _ => true | _ => false end.

(** A computation only ever appends to the trace. *)
Definition extends {A} (m : M A) : Prop :=
  forall w, exists ext, trace (m w).2 = trace w ++ ext.

(** The listener's event reports FD_ACCEPT; everything succeeds. *)
Definition env_accept_ready : Env :=
  env_with (fun c => match c with
                     | c_socket => 5 | c_WSACreateEvent => 9 | _ => 0
                     end)
           {| lNetworkEvents := FD_ACCEPT; iErrorCode := replicate 10 0 |}.

(** The operating system refuses nothing of its own: every native call
    of a listener's start succeeds unless the state of the world forbids
    it (a bind on a path that names an existing entry). *)
Definition cooperative (E : Env) : Prop :=
  (forall n, answer E c_WSAStartup n = 0)
  /\ (forall n, answer E c_unlink n = 0)
  /\ (forall n, 0 <= answer E c_socket n)
  /\ (forall n, answer E c_bind n = 0)
  /\ (forall n, answer E c_listen n = 0)
  /\ (forall n, answer E c_WSACreateEvent n <> 0)
  /\ (forall n, answer E c_WSAEventSelect n = 0).

(** The run of [open_unix_connection_win] from [w] gets as far as the
    native connect, as far as the operating system is concerned: the
    socket and the connect event are created and the event is
    registered. *)
Definition reaches_connect (E : Env) (w : world) : Prop :=
  0 <= answer E c_socket (now w)
  /\ answer E c_WSACreateEvent (S (S (now w))) <> 0
  /\ answer E c_WSAEventSelect (S (S (S (now w)))) = 0.

(** What [open_unix_connection_win] has logged when it issues the
    native connect, and the world at that point. *)
Definition connect_prefix (E : Env) (w : world) : list event :=
  let h := answer E c_socket (now w) in
  let ev := answer E c_WSACreateEvent (S (S (now w))) in
  [e_socket h; e_setblocking h false; e_WSACreateEvent ev;
   e_WSAEventSelect h ev (Z.lor FD_CONNECT FD_CLOSE) 0].

Definition connect_world (E : Env) (w : world) : world :=
  let h := answer E c_socket (now w) in
  let ev := answer E c_WSACreateEvent (S (S (now w))) in
  log (e_WSAEventSelect h ev (Z.lor FD_CONNECT FD_CLOSE) 0)
    (set_wsa_events (union {[ev]})
       (log (e_WSACreateEvent ev)
          (log (e_setblocking h false)
             (set_sockets (union {[h]}) (log (e_socket h) w))))).

(** The values [ws2_32.accept] returned, in order. *)
Definition accept_log (l : list event) : list Z :=
  omap (fun e => match e with e_accept _ h => Some h | _ => None end) l.

(** The streams the handler was called with, in order. *)
Definition callback_log (l : list event) : list AFUnixStream :=
  omap (fun e => match e with e_callback s => Some s | _ => None end) l.

(** The coroutines the handler returns for the connections [q]; a
    result that is not a coroutine gives none. *)
Definition coroutines_of (cb : callback) (q : list Z) : list coro :=
  omap (fun h => match cb (AFUnixStream_init h) with
                 | Ok (Some c) => Some c
                 | _ => None
                 end) q.

(** One round of [handle_client] reading at time [t]: the chunk
    received and its echo. *)
Definition echo_round (E : Env) (h : Z) (t : nat) : list event :=
  [e_sock_recv h 4096 (take 4096 (incoming E t));
   e_sock_sendall h (echo_prefix ++ take 4096 (incoming E t)) 0].

(** * Properties *)

(** ** The address record *)

Lemma c_str_zeros (k : nat) : c_str (replicate k 0) = [].
Proof. destruct k; reflexivity. Qed.

Lemma c_str_length (data : bytes) : (length (c_str data) <= length data)%nat.
Proof.
  induction data as [|b data IH]; simpl; [lia|].
  destruct (b =? 0); simpl; lia.
Qed.

Lemma c_str_app_zeros (data : bytes) (k : nat) :
  c_str (data ++ replicate k 0) = c_str data.
Proof.
  induction data as [|b data IH]; simpl.
  - apply c_str_zeros.
  - destruct (b =? 0); [reflexivity | now rewrite IH].
Qed.

Lemma c_str_no_nul (data : bytes) : 0 ∉ data -> c_str data = data.
Proof.
  induction data as [|b data IH]; simpl; intros H; [reflexivity|].
  apply not_elem_of_cons in H as [Hb Hd].
  destruct (Z.eqb_spec b 0); [congruence | now rewrite IH].
Qed.

Lemma insert_zeros_nil : insert_zeros [] = replicate UNIX_PATH_MAX 0.
Proof. reflexivity. Qed.

Lemma setslice_prefix_nil (n : nat) (v : bytes) :
  bytearray_setslice [] 0 n v = v.
Proof.
  unfold bytearray_setslice. simpl. rewrite drop_nil. apply app_nil_r.
Qed.

(** Writing a value shorter than the field into a zeroed field: the
    C string of the value, then zeros up to the end of the field. *)
Lemma char_array_set_zeros (n : nat) (value : bytes) :
  (length (c_str value) < n)%nat ->
  char_array_set (replicate n 0) value
  = Ok (c_str value ++ replicate (n - length (c_str value)) 0).
Proof.
  intros Hlt. unfold char_array_set. rewrite length_replicate.
  destruct (Nat.ltb_spec (length (c_str value)) n); [|lia].
  f_equal. f_equal. rewrite drop_replicate.
  replace (n - length (c_str value))%nat
    with (S (n - S (length (c_str value)))) by lia.
  reflexivity.
Qed.

Lemma fill_sun_path_new (fam : Z) (enc : bytes) :
  (length enc < SUN_PATH_MAX)%nat ->
  fill_sun_path (set_sun_family Sockaddr_new fam) enc = Ok (padded fam enc).
Proof.
  intros Hlt. unfold fill_sun_path, char_array_get.
  change (sun_path (set_sun_family Sockaddr_new fam))
    with (replicate SUN_PATH_MAX 0).
  rewrite c_str_zeros, setslice_prefix_nil.
  pose proof (c_str_length enc).
  rewrite char_array_set_zeros by lia. reflexivity.
Qed.

Lemma fill_sun_path_cleared_new (fam : Z) (enc : bytes) :
  (length enc < UNIX_PATH_MAX)%nat ->
  fill_sun_path_cleared (set_sun_family Sockaddr_new fam) enc
  = Ok (padded fam enc).
Proof.
  intros Hlt. unfold fill_sun_path_cleared, char_array_get.
  change (sun_path (set_sun_family Sockaddr_new fam))
    with (replicate SUN_PATH_MAX 0).
  rewrite c_str_zeros, insert_zeros_nil.
  unfold bytearray_setslice. rewrite take_0, drop_replicate. simpl app.
  pose proof (c_str_length enc).
  unfold char_array_set. rewrite c_str_app_zeros, length_replicate.
  change UNIX_PATH_MAX with SUN_PATH_MAX in *.
  destruct (Nat.ltb_spec (length (c_str enc)) SUN_PATH_MAX); [|lia].
  unfold padded. f_equal. f_equal. f_equal.
  rewrite drop_replicate.
  replace (SUN_PATH_MAX - length (c_str enc))%nat
    with (S (SUN_PATH_MAX - S (length (c_str enc)))) by lia.
  reflexivity.
Qed.

Lemma encode_address_short (fam : Z) (path : str) (enc : bytes) :
  str_encode path = Some enc -> (length enc < SUN_PATH_MAX)%nat ->
  encode_address fam path = Ok (padded fam enc)
  /\ encode_address_cleared fam path = Ok (padded fam enc).
Proof.
  intros He Hlt. unfold encode_address, encode_address_cleared. rewrite He.
  change UNIX_PATH_MAX with SUN_PATH_MAX.
  destruct (Nat.leb_spec SUN_PATH_MAX (length enc)); [lia|].
  split; [apply fill_sun_path_new | apply fill_sun_path_cleared_new]; exact Hlt.
Qed.

Lemma encode_address_long (fam : Z) (path : str) (enc : bytes) :
  str_encode path = Some enc -> (SUN_PATH_MAX <= length enc)%nat ->
  encode_address fam path = Raise (ValueError "AF_UNIX path too long")
  /\ encode_address_cleared fam path = Raise (ValueError "socket path too long").
Proof.
  intros He Hge. unfold encode_address, encode_address_cleared. rewrite He.
  change UNIX_PATH_MAX with SUN_PATH_MAX.
  destruct (Nat.leb_spec SUN_PATH_MAX (length enc)); [|lia].
  split; reflexivity.
Qed.

Lemma padded_length (fam : Z) (enc : bytes) :
  (length enc < SUN_PATH_MAX)%nat ->
  length (sun_path (padded fam enc)) = SUN_PATH_MAX.
Proof.
  intros Hlt. pose proof (c_str_length enc). unfold padded. cbn [sun_path].
  rewrite length_app, length_replicate. lia.
Qed.

Lemma padded_tail (fam : Z) (enc : bytes) (i : nat) :
  (length enc <= i < SUN_PATH_MAX)%nat ->
  sun_path (padded fam enc) !! i = Some 0.
Proof.
  intros [Hle Hlt]. pose proof (c_str_length enc).
  unfold padded. cbn [sun_path].
  rewrite (lookup_app_r (c_str enc)) by lia.
  apply lookup_replicate. split; [reflexivity | lia].
Qed.

(** Unfold the monad and the native calls, and reduce. *)
Ltac unfold_py :=
  unfold bind, ret, raise, running, lift, get_world, modify, emit, native,
    try_finally, try_except,
    socket_socket, ws2_32_socket, sock_fileno, sock_setblocking, sock_close,
    ws2_32_closesocket, CloseHandle, sock_shutdown, sock_listen, sock_connect,
    socket_from_fileno, WSAStartup, WSACreateEvent, WSACloseEvent,
    WSAResetEvent, WSAEventSelect, WSAEnumNetworkEvents, WSAGetLastError,
    ws2_32_bind, ws2_32_connect, ws2_32_accept, wait_for_handle,
    asyncio_sleep, create_task, connect_accepted_socket, loop_sock_recv,
    loop_sock_sendall, os_path_exists, os_unlink, _check_zero, call_cb.

Ltac run_py := repeat (progress (unfold_py; cbn beta iota zeta)).

(** Case analysis on every test of a program, reducing in between. *)
Ltac step_py := repeat (case_match; simplify_eq; run_py; cbn [fst snd]).

(** Decide a closed, decidable proposition by evaluation. *)
Ltac by_compute := refine (bool_decide_unpack _ _); vm_compute; exact I.

Lemma win_address_step_short (E : Env) (sock : Z) (path : str) (enc : bytes)
    (w : world) :
  str_encode path = Some enc -> (length enc < SUN_PATH_MAX)%nat ->
  win_address_step E sock path w = (Done (padded (socket_AF_UNIX E) enc), w).
Proof.
  intros He Hlt. unfold win_address_step. rewrite He.
  destruct (Nat.leb_spec SUN_PATH_MAX (length enc)); [lia|].
  now rewrite fill_sun_path_new.
Qed.

Lemma unix_address_step_short (E : Env) (s : Z) (path : str) (enc : bytes)
    (w : world) :
  str_encode path = Some enc -> (length enc < UNIX_PATH_MAX)%nat ->
  unix_address_step E s path w = (Done (padded (socket_AF_UNIX E) enc), w).
Proof.
  intros He Hlt. unfold unix_address_step. rewrite He.
  destruct (Nat.leb_spec UNIX_PATH_MAX (length enc)); [lia|].
  now rewrite fill_sun_path_cleared_new.
Qed.

Lemma win_address_step_long (E : Env) (sock : Z) (path : str) (enc : bytes)
    (w : world) :
  str_encode path = Some enc -> (SUN_PATH_MAX <= length enc)%nat ->
  (win_address_step E sock path w).1
  = Raised (ValueError "AF_UNIX path too long")
  /\ sock ∉ sockets (win_address_step E sock path w).2.
Proof.
  intros He Hge. unfold win_address_step. rewrite He.
  destruct (Nat.leb_spec SUN_PATH_MAX (length enc)); [|lia].
  run_py.
  destruct (bool_decide (sock ∈ sockets w)) eqn:Hin; cbn.
  - split; [reflexivity|].
    intros [_ Hn]%elem_of_difference. apply Hn. now apply elem_of_singleton.
  - apply bool_decide_eq_false in Hin. split; [reflexivity | exact Hin].
Qed.

Lemma unix_address_step_long (E : Env) (s : Z) (path : str) (enc : bytes)
    (w : world) :
  str_encode path = Some enc -> (UNIX_PATH_MAX <= length enc)%nat ->
  (unix_address_step E s path w).1
  = Raised (ValueError "socket path too long").
Proof.
  intros He Hge. unfold unix_address_step. rewrite He.
  destruct (Nat.leb_spec UNIX_PATH_MAX (length enc)); [|lia].
  reflexivity.
Qed.

(** C1, as written, at its boundary: a path of 107 bytes (capacity - 1)
    is accepted by both encoders, it is not refused as too long. *)
Lemma path_of_107_bytes_accepted :
  let p : str := replicate 107 97 in
  exists enc a,
    str_encode p = Some enc
    /\ length enc = (SUN_PATH_MAX - 1)%nat
    /\ encode_address AF_UNIX p = Ok a
    /\ encode_address_cleared AF_UNIX p = Ok a.
Proof.
  simpl. eexists. eexists.
  split; [reflexivity|]. split; [reflexivity|]. split; reflexivity.
Qed.

(** C1 (amended): the address encoding of bind and of connect succeeds
    for every path whose UTF-8 encoding is shorter than the capacity
    (at most 107 bytes with capacity 108), and refuses every path of 108
    bytes or more with the path-too-long [ValueError]; nothing is
    truncated. *)
Theorem encode_address_threshold (E : Env) (path : str) (enc : bytes) :
  str_encode path = Some enc ->
  ((length enc < SUN_PATH_MAX)%nat ->
     exists a,
       encode_address (socket_AF_UNIX E) path = Ok a
       /\ encode_address_cleared (socket_AF_UNIX E) path = Ok a
       /\ (forall sock w, win_address_step E sock path w = (Done a, w))
       /\ (forall s w, unix_address_step E s path w = (Done a, w))
       /\ (0 ∉ enc -> take (length enc) (sun_path a) = enc))
  /\ ((SUN_PATH_MAX <= length enc)%nat ->
        encode_address (socket_AF_UNIX E) path
        = Raise (ValueError "AF_UNIX path too long")
        /\ encode_address_cleared (socket_AF_UNIX E) path
           = Raise (ValueError "socket path too long")
        /\ (forall sock w,
              (win_address_step E sock path w).1
              = Raised (ValueError "AF_UNIX path too long"))
        /\ (forall s w,
              (unix_address_step E s path w).1
              = Raised (ValueError "socket path too long"))).
Proof.
  intros He. split.
  - intros Hlt. exists (padded (socket_AF_UNIX E) enc).
    destruct (encode_address_short (socket_AF_UNIX E) path enc He Hlt) as [H1 H2].
    split; [exact H1|]. split; [exact H2|].
    split; [intros; now apply win_address_step_short|].
    split; [intros; now apply unix_address_step_short|].
    intros Hnul. unfold padded. cbn [sun_path].
    rewrite (c_str_no_nul enc Hnul). now rewrite take_app_length.
  - intros Hge.
    destruct (encode_address_long (socket_AF_UNIX E) path enc He Hge) as [H1 H2].
    split; [exact H1|]. split; [exact H2|].
    split.
    + intros sock w. exact (proj1 (win_address_step_long E sock path enc w He Hge)).
    + intros s w. exact (unix_address_step_long E s path enc w He Hge).
Qed.

(** C7: after every successful address encoding (either way the modules
    write it) the path field has its full 108 bytes, every byte from the
    end of the encoded path on is zero, the bytes before are the path (up
    to its first NUL), and the family field holds the family that was
    asked for (its low 16 bits, a [c_ushort]). *)
Theorem encoded_address_zero_filled (fam : Z) (path : str) (a : Sockaddr) :
  encode_address fam path = Ok a \/ encode_address_cleared fam path = Ok a ->
  exists enc,
    str_encode path = Some enc
    /\ length (sun_path a) = SUN_PATH_MAX
    /\ (forall i, (length enc <= i < SUN_PATH_MAX)%nat -> sun_path a !! i = Some 0)
    /\ take (length (c_str enc)) (sun_path a) = c_str enc
    /\ (0 ∉ enc -> sun_path a = enc ++ replicate (SUN_PATH_MAX - length enc) 0)
    /\ sun_family a = fam mod 65536
    /\ (0 <= fam < 65536 -> sun_family a = fam).
Proof.
  intros H.
  assert (exists enc, str_encode path = Some enc
                      /\ (length enc < SUN_PATH_MAX)%nat
                      /\ a = padded fam enc) as (enc & He & Hlt & ->).
  { unfold encode_address, encode_address_cleared in H.
    destruct (str_encode path) as [enc|] eqn:He; [|destruct H; discriminate].
    exists enc. change UNIX_PATH_MAX with SUN_PATH_MAX in H.
    destruct (Nat.leb_spec SUN_PATH_MAX (length enc)) as [Hge|Hlt];
      [destruct H; discriminate|].
    split; [reflexivity|]. split; [exact Hlt|].
    rewrite fill_sun_path_new, fill_sun_path_cleared_new in H by exact Hlt.
    destruct H as [H|H]; now inversion H. }
  exists enc. split; [exact He|].
  split; [now apply padded_length|].
  split; [intros i Hi; now apply padded_tail|].
  split; [unfold padded; cbn [sun_path]; now rewrite take_app_length|].
  split.
  { intros Hnul. unfold padded. cbn [sun_path].
    now rewrite (c_str_no_nul enc Hnul). }
  split; [reflexivity|].
  intros Hr. unfold padded. cbn [sun_family]. now apply Z.mod_small.
Qed.

Lemma encoded_address_zero_filled_witness :
  exists a,
    encode_address AF_UNIX [47; 116; 109; 112] = Ok a
    /\ length (sun_path a) = SUN_PATH_MAX
    /\ sun_path a !! 4%nat = Some 0
    /\ sun_family a = 1.
Proof.
  eexists. split; [reflexivity|].
  destruct (encoded_address_zero_filled AF_UNIX [47; 116; 109; 112] _
              (or_introl eq_refl))
    as (enc & He & Hlen & Htail & _ & _ & Hfam & _).
  split; [exact Hlen|]. split; [|exact Hfam].
  apply Htail. injection He as <-. simpl. unfold SUN_PATH_MAX. lia.
Defined.

Lemma encode_address_threshold_witness :
  exists a, encode_address AF_UNIX [47; 116; 109; 112] = Ok a.
Proof.
  destruct (encode_address_threshold
              (mkEnv (fun _ _ => 0) (fun _ => mkEvents 0 []) (fun _ => [])
                     None true 8)
              [47; 116; 109; 112] [47; 116; 109; 112] eq_refl) as [Hshort _].
  destruct Hshort as (a & Ha & _); [simpl; unfold SUN_PATH_MAX; lia|].
  exists a. exact Ha.
Defined.

(** ** [AFUnixStream] *)

(** C9: [recv] on a closed endpoint returns the empty byte string at
    once: no exception, no native call, the world is as it was.  It is
    the value an open endpoint returns when the peer has shut down. *)
Theorem recv_on_closed_is_empty (E : Env) (self : AFUnixStream) (n : nat)
    (w : world) :
  st_closed self = true ->
  AFUnixStream_recv E self n w = (Done [], w)
  /\ (forall open_stream w0,
        st_closed open_stream = false ->
        answer E c_sock_recv (now w0) = 0 ->
        incoming E (now w0) = [] ->
        (AFUnixStream_recv E open_stream n w0).1 = Done []).
Proof.
  intros Hc. split.
  - unfold AFUnixStream_recv. now rewrite Hc.
  - intros s w0 Ho Ha Hi. unfold AFUnixStream_recv. rewrite Ho.
    run_py. rewrite Ha. cbn. rewrite Hi. now rewrite take_nil.
Qed.

Lemma recv_on_closed_is_empty_witness :
  AFUnixStream_recv
    (mkEnv (fun _ _ => 0) (fun _ => mkEvents 0 []) (fun _ => [104; 105])
           None true 8)
    (mkStream 7 true) 4096
    (mkWorld ∅ ∅ ∅ [] [] false [])
  = (Done [], mkWorld ∅ ∅ ∅ [] [] false []).
Proof.
  apply (recv_on_closed_is_empty
           (mkEnv (fun _ _ => 0) (fun _ => mkEvents 0 []) (fun _ => [104; 105])
                  None true 8)
           (mkStream 7 true) 4096 (mkWorld ∅ ∅ ∅ [] [] false [])).
  reflexivity.
Defined.

Lemma close_closed (E : Env) (self : AFUnixStream) (w : world) :
  st_closed self = true -> AFUnixStream_close E self w = (Done self, w).
Proof. intros Hc. unfold AFUnixStream_close. now rewrite Hc. Qed.

Lemma close_returns_closed (E : Env) (self self' : AFUnixStream)
    (w w' : world) :
  AFUnixStream_close E self w = (Done self', w') -> st_closed self' = true.
Proof.
  unfold AFUnixStream_close. destruct (st_closed self) eqn:Hc; cbn [negb].
  - intros H. inversion H; subst. exact Hc.
  - unfold bind at 1.
    destruct (try_except _ _ _ w) as [[[]| |] w1]; try discriminate.
    unfold bind. destruct (sock_close (st_sock self) w1) as [[[]| |] w2];
      try discriminate.
    unfold ret. intros H. now inversion H.
Qed.

(** C6: once a [close] has returned, the endpoint is closed, and every
    later [close], however many, from whatever state the world is in,
    returns without an exception, makes no native call and leaves the
    endpoint and the world as they are. *)
Theorem close_idempotent (E : Env) (self self' : AFUnixStream) (w w' : world) :
  AFUnixStream_close E self w = (Done self', w') ->
  st_closed self' = true
  /\ (forall w2, AFUnixStream_close E self' w2 = (Done self', w2))
  /\ (forall w2,
        bind (AFUnixStream_close E self') (AFUnixStream_close E) w2
        = (Done self', w2)).
Proof.
  intros H. pose proof (close_returns_closed E self self' w w' H) as Hc.
  split; [exact Hc|]. split.
  - intros w2. now apply close_closed.
  - intros w2. unfold bind. rewrite (close_closed E self' w2 Hc).
    now apply close_closed.
Qed.

Lemma close_idempotent_witness :
  let E := mkEnv (fun _ _ => 0) (fun _ => mkEvents 0 []) (fun _ => [])
                 None true 8 in
  let w := mkWorld ∅ {[7]} ∅ [] [] false [] in
  exists w',
    AFUnixStream_close E (mkStream 7 false) w = (Done (mkStream 7 true), w')
    /\ (7 ∉ sockets w')
    /\ AFUnixStream_close E (mkStream 7 true) w' = (Done (mkStream 7 true), w').
Proof.
  intros E w.
  assert (exists w', AFUnixStream_close E (mkStream 7 false) w
                     = (Done (mkStream 7 true), w') /\ (7 ∉ sockets w'))
    as (w' & Hw' & Hout).
  { eexists. split; [vm_compute; reflexivity|]. by_compute. }
  exists w'. split; [exact Hw'|]. split; [exact Hout|].
  exact (proj1 (proj2 (close_idempotent E _ _ w w' Hw')) w').
Defined.

(** ** [AFUnixServerWin.start] *)

Lemma start_started (self : AFUnixServerWin) (w : world) :
  srv_task self <> None ->
  AFUnixServerWin_start self w
  = (Raised (RuntimeError "Server already started"), w).
Proof.
  intros H. unfold AFUnixServerWin_start.
  destruct (srv_task self); [reflexivity | contradiction].
Qed.

Lemma start_calls_started (n : nat) (self : AFUnixServerWin)
    (w : world) :
  srv_task self <> None -> start_calls n self w = (self, w).
Proof.
  intros H. induction n as [|n IH]; simpl; [reflexivity|].
  now rewrite start_started.
Qed.

Lemma start_calls_tasks (n : nat) (self : AFUnixServerWin)
    (w : world) :
  (length (tasks (start_calls n self w).2) <= S (length (tasks w)))%nat.
Proof.
  destruct n as [|n]; simpl; [lia|].
  destruct (srv_task self) as [t|] eqn:Ht.
  - rewrite start_started by congruence.
    rewrite start_calls_started by congruence. simpl. lia.
  - unfold AFUnixServerWin_start. rewrite Ht. run_py.
    rewrite start_calls_started by (simpl; congruence).
    simpl. rewrite length_app. simpl. lia.
Qed.

(** C10: a [start] that succeeds found no accept-loop task and created
    exactly one; every later [start] on the object raises
    [RuntimeError], creates no task and changes nothing; so however
    many times [start] is called on a server, at most one accept-loop
    task is created for it. *)
Theorem start_at_most_once (self self' : AFUnixServerWin)
    (w w' : world) :
  AFUnixServerWin_start self w = (Done self', w') ->
  srv_task self = None
  /\ srv_task self' = Some (accept_loop_coro (srv_sock self))
  /\ tasks w' = tasks w ++ [accept_loop_coro (srv_sock self)]
  /\ (forall w2,
        AFUnixServerWin_start self' w2
        = (Raised (RuntimeError "Server already started"), w2))
  /\ (forall n w2, start_calls n self' w2 = (self', w2))
  /\ (forall n w0,
        (length (tasks (start_calls n self w0).2) <= S (length (tasks w0)))%nat).
Proof.
  unfold AFUnixServerWin_start at 1.
  destruct (srv_task self) as [t|] eqn:Ht; [discriminate|].
  run_py. intros H. inversion H; subst; clear H.
  split; [reflexivity|]. split; [reflexivity|]. split; [reflexivity|].
  split; [intros w2; apply start_started; simpl; congruence|].
  split; [intros n w2; apply start_calls_started; simpl; congruence|].
  intros n w0. apply start_calls_tasks.
Qed.

Lemma start_at_most_once_witness :
  let srv := mkServer [47; 115] 100 true None false 5 (Some 9) in
  let w := mkWorld ∅ {[5]} {[9]} [] [] false [] in
  exists srv' w',
    AFUnixServerWin_start srv w = (Done srv', w')
    /\ tasks w' = [accept_loop_coro 5]
    /\ AFUnixServerWin_start srv' w'
       = (Raised (RuntimeError "Server already started"), w').
Proof.
  intros srv w. eexists. eexists.
  split; [reflexivity|].
  destruct (start_at_most_once srv _ w _ eq_refl)
    as (_ & _ & Ht & Hagain & _).
  split; [exact Ht | apply Hagain].
Defined.

(** ** The client connectors *)

(** After the connect step, [open_unix_connection_win] suspends on the
    connect event, once. *)
Lemma win_await_step_waits (E : Env) (sock ev : Z) (w : world) :
  has_proactor E = true ->
  exists rest,
    trace (win_await_step E sock ev w).2
    = trace w ++ e_wait ev (answer E c_wait_for_handle (now w)) :: rest
    /\ Forall (fun e => is_wait e = false) rest.
Proof.
  intros Hp. unfold win_await_step. rewrite Hp. run_py. step_py.
  all: cbn; rewrite <- ?app_assoc; cbn.
  all: eexists; (split; [reflexivity|]).
  all: repeat constructor.
Qed.

Lemma win_connect_step_immediate (E : Env) (sock : Z) (addr : Sockaddr)
    (w : world) :
  answer E c_connect (now w) = 0 ->
  win_connect_step E sock addr w
  = (Done tt,
     log (e_connect (if bool_decide (sock ∈ sockets w) then sock else -1)
                    addr 0) w).
Proof.
  intros Hr. unfold win_connect_step. run_py. rewrite Hr. reflexivity.
Qed.

Lemma win_connect_step_in_progress (E : Env) (sock : Z) (addr : Sockaddr)
    (w : world) :
  answer E c_connect (now w) <> 0 ->
  answer E c_WSAGetLastError (S (now w)) = WSAEWOULDBLOCK ->
  win_connect_step E sock addr w
  = (Done tt,
     log (e_WSAGetLastError WSAEWOULDBLOCK)
       (log (e_connect (if bool_decide (sock ∈ sockets w) then sock else -1)
                       addr (answer E c_connect (now w))) w)).
Proof.
  intros Hr He. unfold win_connect_step. run_py.
  destruct (Z.eqb_spec (answer E c_connect (now w)) 0) as [|_]; [contradiction|].
  cbn [negb]. run_py.
  replace (now (log _ w)) with (S (now w))
    by (unfold now, log; cbn; rewrite length_app; simpl; lia).
  rewrite He. reflexivity.
Qed.

Lemma win_connect_step_failed (E : Env) (sock : Z) (addr : Sockaddr)
    (w : world) :
  answer E c_connect (now w) <> 0 ->
  answer E c_WSAGetLastError (S (now w)) <> WSAEWOULDBLOCK ->
  (win_connect_step E sock addr w).1
  = Raised (OSError (Some (answer E c_WSAGetLastError (S (now w))))
                    "ws2_32.connect failed")
  /\ sock ∉ sockets (win_connect_step E sock addr w).2.
Proof.
  intros Hr He. unfold win_connect_step. run_py.
  destruct (Z.eqb_spec (answer E c_connect (now w)) 0) as [|_]; [contradiction|].
  cbn [negb]. run_py.
  replace (now (log _ w)) with (S (now w))
    by (unfold now, log; cbn; rewrite length_app; simpl; lia).
  destruct (Z.eqb_spec (answer E c_WSAGetLastError (S (now w))) 10035)
    as [|_]; [contradiction|].
  cbn [negb]. run_py.
  destruct (bool_decide _) eqn:Hin; cbn.
  - split; [reflexivity|].
    intros [_ Hn]%elem_of_difference. apply Hn. now apply elem_of_singleton.
  - apply bool_decide_eq_false in Hin. split; [reflexivity | exact Hin].
Qed.

Lemma unix_connect_step_failed (E : Env) (s : Z) (addr : Sockaddr) (w : world) :
  answer E c_connect (now w) <> 0 ->
  (unix_connect_step E s addr w).1
  = Raised (OSError None "ws2_32.connect failed").
Proof.
  intros Hr. unfold unix_connect_step. run_py.
  destruct (Z.eqb_spec (answer E c_connect (now w)) 0) as [|_]; [contradiction|].
  reflexivity.
Qed.


(** C5, as written: the native connect returns 0 at once, and
    [open_unix_connection_win] still waits on the connect event (handle
    9) before it returns the endpoint. *)
Lemma immediate_connect_still_waits :
  let r := open_unix_connection_win env_nominal [47; 115] world0 in
  r.1 = Done (mkStream 5 false)
  /\ trace r.2
     = [e_socket 5; e_setblocking 5 false; e_WSACreateEvent 9;
        e_WSAEventSelect 5 9 48 0;
        e_connect 5 (padded 1 [47; 115]) 0;
        e_wait 9 0;
        e_WSAEnumNetworkEvents 5 9 0 connect_done;
        e_WSACloseEvent 9].
Proof. split; reflexivity. Qed.

(** C4 at a failing input: [WSAEventSelect] fails in
    [open_unix_connection_win].  The error is raised, the event (handle
    9) has been closed by the [finally] clause, and the socket (handle
    5) is still open: no [e_sock_close] was issued. *)
Theorem event_select_failure_leaves_socket_open :
  let r := open_unix_connection_win env_select_fails [47; 115] world0 in
  r.1 = Raised (OSError (Some 10038) "WSAEventSelect(FD_CONNECT|FD_CLOSE)")
  /\ 5 ∈ sockets r.2
  /\ (9 ∉ wsa_events r.2)
  /\ trace r.2
     = [e_socket 5; e_setblocking 5 false; e_WSACreateEvent 9;
        e_WSAEventSelect 5 9 48 (-1); e_WSAGetLastError 10038;
        e_WSACloseEvent 9].
Proof.
  split; [reflexivity|].
  split; [by_compute|].
  split; [by_compute | reflexivity].
Qed.

(** The same slip when [WSAEnumNetworkEvents] fails after the wait. *)
Lemma event_query_failure_leaves_socket_open :
  let r := open_unix_connection_win env_enum_fails [47; 115] world0 in
  r.1 = Raised (OSError (Some 10050) "WSAEnumNetworkEvents(connect)")
  /\ 5 ∈ sockets r.2
  /\ (9 ∉ wsa_events r.2).
Proof.
  split; [reflexivity|].
  split; by_compute.
Qed.

(** The event half of the release does hold on every failure path: the
    [finally] clause closes the event whatever was raised. *)
Lemma connect_failure_releases_event (E : Env) (path : str) (w : world)
    (e : exn) :
  (open_unix_connection_win E path w).1 = Raised e ->
  wsa_events (open_unix_connection_win E path w).2 ⊆ wsa_events w.
Proof.
  unfold open_unix_connection_win, win_address_step, win_connect_step,
    win_await_step.
  run_py. step_py.
  all: cbn; try discriminate.
  all: intros _.
  all: try reflexivity.
  all: try (intros x [[Hx|Hx]%elem_of_union Hn]%elem_of_difference;
            [contradiction | exact Hx]).
Qed.

(** ** Programs only append to the trace *)

Lemma extends_ret {A} (a : A) : extends (ret a).
Proof. intros w. exists []. cbn. now rewrite app_nil_r. Qed.

Lemma extends_raise {A} (e : exn) : extends (@raise A e).
Proof. intros w. exists []. cbn. now rewrite app_nil_r. Qed.

Lemma extends_running {A} : extends (@running A).
Proof. intros w. exists []. cbn. now rewrite app_nil_r. Qed.

Lemma extends_bind {A B} (m : M A) (k : A -> M B) :
  extends m -> (forall a, extends (k a)) -> extends (bind m k).
Proof.
  intros Hm Hk w. unfold bind. destruct (Hm w) as [e1 H1].
  destruct (m w) as [[a|e|] w1]; cbn in H1.
  - destruct (Hk a w1) as [e2 H2]. exists (e1 ++ e2).
    now rewrite H2, H1, app_assoc.
  - now exists e1.
  - now exists e1.
Qed.

Lemma extends_try_except {A} (m : M A) (c : exn -> bool) (h : exn -> M A) :
  extends m -> (forall e, extends (h e)) -> extends (try_except m c h).
Proof.
  intros Hm Hh w. unfold try_except. destruct (Hm w) as [e1 H1].
  destruct (m w) as [[a|e|] w1]; cbn in H1.
  - now exists e1.
  - destruct (c e); [|now exists e1].
    destruct (Hh e w1) as [e2 H2]. exists (e1 ++ e2).
    now rewrite H2, H1, app_assoc.
  - now exists e1.
Qed.

Lemma extends_emit (e : event) : extends (emit e).
Proof. intros w. now exists [e]. Qed.

Lemma extends_lift {A} (r : result A) : extends (lift r).
Proof. destruct r; [apply extends_ret | apply extends_raise]. Qed.

(** Native calls, by cases on their tests. *)
Ltac ext_prim :=
  intros ?w; run_py; step_py; cbn; rewrite <- ?app_assoc;
  first [ now eexists | exists []; now rewrite app_nil_r ].

Lemma extends_sock_close (h : Z) : extends (sock_close h).
Proof. ext_prim. Qed.

Lemma extends_sock_fileno (h : Z) : extends (sock_fileno h).
Proof. ext_prim. Qed.

Lemma extends_sock_setblocking (h : Z) (b : bool) :
  extends (sock_setblocking h b).
Proof. ext_prim. Qed.

Lemma extends_socket_from_fileno (E : Env) (fd : Z) :
  extends (socket_from_fileno E fd).
Proof. ext_prim. Qed.

Lemma extends_create_task (c : coro) : extends (create_task c).
Proof. ext_prim. Qed.

Lemma extends_wait_for_handle (E : Env) (ev : Z) :
  extends (wait_for_handle E ev).
Proof. ext_prim. Qed.

Lemma extends_WSAEnumNetworkEvents (E : Env) (s ev : Z) :
  extends (WSAEnumNetworkEvents E s ev).
Proof. ext_prim. Qed.

Lemma extends_check_zero (E : Env) (r : Z) (what : string) :
  extends (_check_zero E r what).
Proof. ext_prim. Qed.

Lemma extends_ws2_32_accept (E : Env) (s : Z) : extends (ws2_32_accept E s).
Proof. ext_prim. Qed.

Lemma extends_AFUnixStream_close (E : Env) (s : AFUnixStream) :
  extends (AFUnixStream_close E s).
Proof. unfold AFUnixStream_close. ext_prim. Qed.

Create HintDb extends.
#[local] Hint Resolve extends_ret extends_raise extends_running extends_emit
  extends_lift extends_sock_close extends_sock_fileno
  extends_sock_setblocking extends_socket_from_fileno extends_create_task
  extends_wait_for_handle extends_WSAEnumNetworkEvents extends_check_zero
  extends_ws2_32_accept extends_AFUnixStream_close : extends.

(** Composite programs: follow the binds, the handlers and the tests. *)
Ltac ext_tac :=
  repeat first
    [ solve [eauto with extends]
    | apply extends_bind; [|intros ?]
    | apply extends_try_except; [|intros ?]
    | case_match ].

Lemma extends_accept_one (E : Env) (self : AFUnixServerWin) (cb : callback)
    (client_fd : Z) :
  extends (accept_one E self cb client_fd).
Proof. unfold accept_one, call_cb. ext_tac. Qed.

Lemma extends_accept_all (E : Env) (self : AFUnixServerWin) (cb : callback)
    (k : nat) :
  extends (accept_all E k self cb).
Proof.
  induction k as [|k IH]; cbn [accept_all]; [apply extends_running|].
  pose proof (extends_accept_one E self cb). ext_tac.
Qed.

(** The first event of [m ;; k] when [m] logs exactly one event. *)
Lemma first_event_bind {A B} (m : M A) (k : A -> M B) (e : world -> event) :
  (forall w, trace (m w).2 = trace w ++ [e w]) ->
  (forall a, extends (k a)) ->
  forall w, exists rest, trace (bind m k w).2 = trace w ++ e w :: rest.
Proof.
  intros Hm Hk w. unfold bind. specialize (Hm w).
  destruct (m w) as [[a|x|] w1]; cbn in Hm.
  - destruct (Hk a w1) as [ext Hext]. exists ext.
    now rewrite Hext, Hm, <- app_assoc.
  - now exists [].
  - now exists [].
Qed.

Lemma wait_for_handle_trace (E : Env) (ev : Z) (w : world) :
  trace (wait_for_handle E ev w).2
  = trace w ++ [e_wait ev (answer E c_wait_for_handle (now w))].
Proof. unfold wait_for_handle. run_py. now case_match. Qed.

(** ** The accept loops *)

(** Every wake-up of [AFUnixServerWin._accept_loop] begins by waiting
    on the accept event. *)
Lemma accept_wakeup_waits_first (E : Env) (self : AFUnixServerWin)
    (cb : callback) (k : nat) (w : world) :
  exists rest,
    trace (accept_wakeup E k self cb w).2
    = trace w
      ++ e_wait (default 0 (srv_accept_event self))
                (answer E c_wait_for_handle (now w)) :: rest.
Proof.
  unfold accept_wakeup.
  apply (first_event_bind _ _
           (fun w => e_wait (default 0 (srv_accept_event self))
                            (answer E c_wait_for_handle (now w)))).
  - apply wait_for_handle_trace.
  - intros _. pose proof (extends_accept_all E self cb k). ext_tac.
Qed.

Lemma extends_accept_wakeup (E : Env) (self : AFUnixServerWin)
    (cb : callback) (k : nat) :
  extends (accept_wakeup E k self cb).
Proof.
  intros w. destruct (accept_wakeup_waits_first E self cb k w) as [rest H].
  eexists. exact H.
Qed.

Lemma extends_accept_while (E : Env) (self : AFUnixServerWin)
    (cb : callback) (k n : nat) :
  extends (accept_while E k n self cb).
Proof.
  induction n as [|n IH]; cbn [accept_while]; [apply extends_running|].
  destruct (negb (srv_closed self)); [|apply extends_ret].
  apply extends_bind; [apply extends_accept_wakeup|].
  intros [|]; [exact IH | apply extends_ret].
Qed.

Lemma bind_done {A B} (m : M A) (k : A -> M B) (w w' : world) (a : A) :
  m w = (Done a, w') -> bind m k w = k a w'.
Proof. intros H. unfold bind. now rewrite H. Qed.

Lemma now_log (e : event) (w : world) : now (log e w) = S (now w).
Proof. unfold now, log. cbn. rewrite length_app. cbn. lia. Qed.

Lemma bind_first_event {A B} (m : M A) (k : A -> M B) (e : event) (w : world) :
  (exists rest, trace (m w).2 = trace w ++ e :: rest) ->
  (forall a, extends (k a)) ->
  exists rest, trace (bind m k w).2 = trace w ++ e :: rest.
Proof.
  intros [rest Hm] Hk. unfold bind.
  destruct (m w) as [[a|x|] w1]; cbn in Hm.
  - destruct (Hk a w1) as [ext Hext]. exists (rest ++ ext).
    rewrite Hext, Hm, <- app_assoc. reflexivity.
  - now exists rest.
  - now exists rest.
Qed.

(** With two connections queued, one turn of
    [WindowsUnixServer._accept_loop] accepts a single connection. *)
Lemma wus_turn_one_accept (E : Env) (serv : Z) (cb : stream_callback)
    (w : world) :
  exists ext,
    trace (wus_accept_turn E serv cb w).2 = trace w ++ ext
    /\ (length (List.filter is_accept ext) <= 1)%nat.
Proof.
  unfold wus_accept_turn. run_py. step_py.
  all: cbn; rewrite <- ?app_assoc; cbn.
  all: eexists; (split; [reflexivity|]).
  all: cbn; lia.
Qed.


(** ** Starting a listener on a path that already exists *)

Lemma c_str_idemp (data : bytes) : c_str (c_str data) = c_str data.
Proof.
  induction data as [|b data IH]; [reflexivity|]. cbn.
  destruct (b =? 0) eqn:Hb; [reflexivity|]. cbn. now rewrite Hb, IH.
Qed.

Lemma c_str_padded (fam : Z) (enc : bytes) :
  c_str (sun_path (padded fam enc)) = c_str enc.
Proof.
  unfold padded. cbn [sun_path]. now rewrite c_str_app_zeros, c_str_idemp.
Qed.


Lemma os_path_exists_true (path : str) (w : world) :
  (os_path_exists path w).1 = Done true ->
  os_path_exists path w = (Done true, w)
  /\ exists enc, str_encode path = Some enc /\ (0 ∉ enc) /\ enc ∈ files w.
Proof.
  unfold os_path_exists. run_py. cbn [fst]. intros H.
  injection H as H. rewrite H. split; [reflexivity|].
  destruct (str_encode path) as [enc|]; [|discriminate].
  apply andb_prop in H as [Hnul Hin].
  apply bool_decide_eq_true in Hnul, Hin. now exists enc.
Qed.

Lemma os_unlink_ok (E : Env) (path : str) (enc : bytes) (w : world) :
  str_encode path = Some enc -> answer E c_unlink (now w) = 0 ->
  enc ∈ files w ->
  os_unlink E path w
  = (Done tt, set_files (fun s => s ∖ {[enc]}) (log (e_unlink path 0) w)).
Proof.
  intros He Ha Hin. unfold os_unlink. rewrite He. run_py. rewrite Ha.
  cbn. now rewrite (bool_decide_eq_true_2 _ Hin).
Qed.

Lemma socket_socket_ok (E : Env) (fam : Z) (w : world) :
  0 <= answer E c_socket (now w) ->
  socket_socket E fam w
  = (Done (answer E c_socket (now w)),
     set_sockets (union {[answer E c_socket (now w)]})
       (log (e_socket (answer E c_socket (now w))) w)).
Proof.
  intros Ha. unfold socket_socket. run_py.
  now rewrite (proj2 (Z.ltb_ge _ _) Ha).
Qed.

Lemma sock_fileno_open (h : Z) (w : world) :
  h ∈ sockets w -> sock_fileno h w = (Done h, w).
Proof.
  intros Hin. unfold sock_fileno. run_py.
  now rewrite (bool_decide_eq_true_2 _ Hin).
Qed.

Lemma ws2_32_bind_free (E : Env) (s : Z) (addr : Sockaddr) (w : world) :
  c_str (sun_path addr) ∉ files w -> answer E c_bind (now w) = 0 ->
  ws2_32_bind E s addr w
  = (Done 0, set_files (union {[c_str (sun_path addr)]})
               (log (e_bind s addr 0) w)).
Proof.
  intros Hout Ha. unfold ws2_32_bind. run_py.
  rewrite (bool_decide_eq_false_2 _ Hout). cbn beta iota zeta.
  now rewrite Ha.
Qed.

Lemma ws2_32_bind_taken (E : Env) (s : Z) (addr : Sockaddr) (w : world) :
  c_str (sun_path addr) ∈ files w ->
  ws2_32_bind E s addr w = (Done (-1), log (e_bind s addr (-1)) w).
Proof.
  intros Hin. unfold ws2_32_bind. run_py.
  now rewrite (bool_decide_eq_true_2 _ Hin).
Qed.

Lemma sock_listen_ok (E : Env) (h backlog : Z) (w : world) :
  answer E c_listen (now w) = 0 ->
  sock_listen E h backlog w = (Done tt, log (e_listen h backlog 0) w).
Proof. intros Ha. unfold sock_listen. run_py. now rewrite Ha. Qed.

Lemma WSACreateEvent_ok (E : Env) (w : world) :
  answer E c_WSACreateEvent (now w) <> 0 ->
  WSACreateEvent E w
  = (Done (answer E c_WSACreateEvent (now w)),
     set_wsa_events (union {[answer E c_WSACreateEvent (now w)]})
       (log (e_WSACreateEvent (answer E c_WSACreateEvent (now w))) w)).
Proof.
  intros Ha. unfold WSACreateEvent. run_py.
  now rewrite (proj2 (Z.eqb_neq _ _) Ha).
Qed.

Lemma WSAEventSelect_ok (E : Env) (s ev mask : Z) (w : world) :
  answer E c_WSAEventSelect (now w) = 0 ->
  WSAEventSelect E s ev mask w = (Done 0, log (e_WSAEventSelect s ev mask 0) w).
Proof. intros Ha. unfold WSAEventSelect. run_py. now rewrite Ha. Qed.

Lemma os_path_exists_intro (path : str) (enc : bytes) (w : world) :
  str_encode path = Some enc -> 0 ∉ enc -> enc ∈ files w ->
  os_path_exists path w = (Done true, w).
Proof.
  intros He Hnul Hin. unfold os_path_exists. run_py. rewrite He.
  now rewrite (bool_decide_eq_true_2 _ Hnul), (bool_decide_eq_true_2 _ Hin).
Qed.

Lemma try_except_done {A} (m : M A) (c : exn -> bool) (h : exn -> M A)
    (w w' : world) (a : A) :
  m w = (Done a, w') -> try_except m c h w = (Done a, w').
Proof. intros H. unfold try_except. now rewrite H. Qed.

Lemma ensure_wsa_started_ok (E : Env) (w : world) :
  answer E c_WSAStartup (now w) = 0 ->
  ensure_wsa_started E w
  = (Done tt, if wsa_started w then w
              else set_wsa_started true (log (e_WSAStartup 0) w)).
Proof.
  intros Ha. unfold ensure_wsa_started. run_py.
  destruct (wsa_started w); [reflexivity|].
  run_py. now rewrite Ha.
Qed.

(** Run the next statement of a program with a lemma about it. *)
Ltac step_with tac := erewrite bind_done; [cbn beta iota | tac].

Section StaleEntry.

Variable E : Env.
Variables (path : str) (enc : bytes) (w : world).

Hypothesis coop : cooperative E.
Hypothesis Hpath : str_encode path = Some enc.
Hypothesis Hshort : (length enc < SUN_PATH_MAX)%nat.
Hypothesis Hnul : 0 ∉ enc.
Hypothesis Hstale : enc ∈ files w.

Let addr : Sockaddr := padded (socket_AF_UNIX E) enc.

Lemma addr_key : c_str (sun_path addr) = enc.
Proof. unfold addr. now rewrite c_str_padded, c_str_no_nul. Qed.

Lemma init_unlinks_then_binds (backlog : Z) :
  exists srv w' sock ev,
    AFUnixServerWin_init E path backlog true w = (Done srv, w')
    /\ srv_sock srv = sock
    /\ srv_accept_event srv = Some ev
    /\ trace w'
       = trace w
         ++ [e_unlink path 0; e_socket sock; e_setblocking sock false;
             e_bind sock addr 0; e_listen sock backlog 0;
             e_WSACreateEvent ev;
             e_WSAEventSelect sock ev (Z.lor FD_ACCEPT FD_CLOSE) 0]
    /\ enc ∈ files w'
    /\ sock ∈ sockets w'.
Proof.
  destruct coop as (Hstart & Hunlink & Hsock & Hbind & Hlisten & Hev & Hsel).
  unfold AFUnixServerWin_init.
  step_with ltac:(now apply (os_path_exists_intro path enc)).
  step_with ltac:(apply (os_unlink_ok E path enc);
                  [exact Hpath | apply Hunlink | exact Hstale]).
  step_with ltac:(apply socket_socket_ok; apply Hsock).
  step_with ltac:(reflexivity).
  rewrite (proj1 (encode_address_short (socket_AF_UNIX E) path enc Hpath Hshort)).
  fold addr.
  step_with ltac:(reflexivity).
  step_with ltac:(apply sock_fileno_open; cbn; apply elem_of_union_l;
                  now apply elem_of_singleton).
  step_with ltac:(apply ws2_32_bind_free; [|apply Hbind]).
  2:{ pose proof addr_key as Hk. rewrite Hk. cbn.
      intros [_ Hn]%elem_of_difference. apply Hn. now apply elem_of_singleton. }
  cbn [negb Z.eqb].
  step_with ltac:(reflexivity).
  step_with ltac:(apply sock_listen_ok; apply Hlisten).
  step_with ltac:(apply WSACreateEvent_ok; apply Hev).
  rewrite (proj2 (Z.eqb_neq _ _) (Hev _)).
  step_with ltac:(reflexivity).
  step_with ltac:(apply sock_fileno_open; cbn; apply elem_of_union_l;
                  now apply elem_of_singleton).
  step_with ltac:(apply WSAEventSelect_ok; apply Hsel).
  step_with ltac:(reflexivity).
  eexists. eexists. eexists. eexists.
  split; [reflexivity|]. split; [reflexivity|]. split; [reflexivity|].
  split; [cbn; rewrite <- !app_assoc; reflexivity|].
  split.
  - pose proof addr_key as Hk.
    cbn [files set_files set_sockets set_wsa_events log add_task].
    rewrite Hk. apply elem_of_union_l. now apply elem_of_singleton.
  - cbn. apply elem_of_union_l. now apply elem_of_singleton.
Qed.

(** Without the unlink the entry makes the bind fail. *)
Lemma init_without_unlink_fails (backlog : Z) :
  exists err,
    (AFUnixServerWin_init E path backlog false w).1
    = Raised (OSError (Some err) "ws2_32.bind failed").
Proof.
  destruct coop as (Hstart & Hunlink & Hsock & Hbind & Hlisten & Hev & Hsel).
  unfold AFUnixServerWin_init.
  step_with ltac:(reflexivity).
  step_with ltac:(reflexivity).
  step_with ltac:(apply socket_socket_ok; apply Hsock).
  step_with ltac:(reflexivity).
  rewrite (proj1 (encode_address_short (socket_AF_UNIX E) path enc Hpath Hshort)).
  fold addr.
  step_with ltac:(reflexivity).
  step_with ltac:(apply sock_fileno_open; cbn; apply elem_of_union_l;
                  now apply elem_of_singleton).
  step_with ltac:(apply ws2_32_bind_taken; pose proof addr_key as Hk;
                  rewrite Hk; exact Hstale).
  cbn [negb Z.eqb]. run_py. cbn. now eexists.
Qed.

Lemma wus_start_unlinks_then_binds (self : WindowsUnixServer) :
  wus_path self = path ->
  exists srv w' sock,
    WindowsUnixServer_start E self w = (Done srv, w')
    /\ wus_sock srv = Some sock
    /\ trace w'
       = trace w
         ++ (if wsa_started w then [] else [e_WSAStartup 0])
         ++ [e_unlink path 0; e_socket sock; e_setblocking sock false;
             e_bind sock addr 0; e_listen sock 5 0;
             e_create_task (accept_loop_coro sock)]
    /\ enc ∈ files w'.
Proof.
  intros Hself.
  destruct coop as (Hstart & Hunlink & Hsock & Hbind & Hlisten & Hev & Hsel).
  unfold WindowsUnixServer_start. rewrite Hself.
  step_with ltac:(apply ensure_wsa_started_ok; apply Hstart).
  set (w0 := if wsa_started w then w
             else set_wsa_started true (log (e_WSAStartup 0) w)).
  assert (Hfiles0 : files w0 = files w) by (unfold w0; now destruct (wsa_started w)).
  assert (Htrace0 : trace w0
                    = trace w ++ (if wsa_started w then [] else [e_WSAStartup 0])).
  { unfold w0. destruct (wsa_started w); cbn; [now rewrite app_nil_r | reflexivity]. }
  step_with ltac:(apply (os_path_exists_intro path enc);
                  [exact Hpath | exact Hnul | rewrite Hfiles0; exact Hstale]).
  step_with ltac:(apply try_except_done; apply (os_unlink_ok E path enc);
                  [exact Hpath | apply Hunlink | rewrite Hfiles0; exact Hstale]).
  step_with ltac:(apply socket_socket_ok; apply Hsock).
  step_with ltac:(reflexivity).
  rewrite (proj1 (encode_address_short (socket_AF_UNIX E) path enc Hpath Hshort)).
  fold addr.
  step_with ltac:(reflexivity).
  step_with ltac:(apply sock_fileno_open; cbn; apply elem_of_union_l;
                  now apply elem_of_singleton).
  step_with ltac:(apply ws2_32_bind_free; [|apply Hbind]).
  2:{ pose proof addr_key as Hk. rewrite Hk. cbn.
      intros [_ Hn]%elem_of_difference. apply Hn. now apply elem_of_singleton. }
  cbn [negb Z.eqb].
  step_with ltac:(reflexivity).
  step_with ltac:(apply sock_listen_ok; apply Hlisten).
  step_with ltac:(reflexivity).
  eexists. eexists. eexists.
  split; [reflexivity|]. split; [reflexivity|].
  split.
  - cbn. rewrite Htrace0, <- !app_assoc. reflexivity.
  - pose proof addr_key as Hk.
    cbn [files set_files set_sockets set_wsa_events log add_task].
    rewrite Hk. apply elem_of_union_l. now apply elem_of_singleton.
Qed.

End StaleEntry.

Lemma extends_socket_socket (E : Env) (fam : Z) : extends (socket_socket E fam).
Proof. ext_prim. Qed.

Lemma extends_ws2_32_bind (E : Env) (s : Z) (a : Sockaddr) :
  extends (ws2_32_bind E s a).
Proof. ext_prim. Qed.

Lemma extends_WSAGetLastError (E : Env) : extends (WSAGetLastError E).
Proof. ext_prim. Qed.

Lemma extends_sock_listen (E : Env) (h b : Z) : extends (sock_listen E h b).
Proof. ext_prim. Qed.

Lemma extends_WSACreateEvent (E : Env) : extends (WSACreateEvent E).
Proof. ext_prim. Qed.

Lemma extends_WSAEventSelect (E : Env) (s ev m : Z) :
  extends (WSAEventSelect E s ev m).
Proof. ext_prim. Qed.

#[local] Hint Resolve extends_socket_socket extends_ws2_32_bind
  extends_WSAGetLastError extends_sock_listen extends_WSACreateEvent
  extends_WSAEventSelect : extends.

Lemma os_unlink_trace (E : Env) (path : str) (enc : bytes) (w : world) :
  str_encode path = Some enc ->
  trace (os_unlink E path w).2
  = trace w ++ [e_unlink path (answer E c_unlink (now w))].
Proof.
  intros He. unfold os_unlink. rewrite He. run_py. step_py; reflexivity.
Qed.

(** The unlink is the first native call of the constructor: whatever
    the operating system answers, nothing (the bind in particular)
    happens before it. *)
Lemma init_unlink_is_first (E : Env) (path : str) (enc : bytes) (backlog : Z)
    (w : world) :
  str_encode path = Some enc ->
  (os_path_exists path w).1 = Done true ->
  exists rest,
    trace (AFUnixServerWin_init E path backlog true w).2
    = trace w ++ e_unlink path (answer E c_unlink (now w)) :: rest.
Proof.
  intros He Hex. destruct (os_path_exists_true path w Hex) as [Hex' _].
  unfold AFUnixServerWin_init.
  step_with ltac:(exact Hex').
  apply (first_event_bind _ _
           (fun w => e_unlink path (answer E c_unlink (now w)))).
  - intros w0. now apply (os_unlink_trace E path enc).
  - intros _. ext_tac.
Qed.

Lemma env_nominal_cooperative : cooperative env_nominal.
Proof. repeat split; intros n; cbn; lia. Qed.

Lemma try_except_raised {A} (m : M A) (c : exn -> bool) (h : exn -> M A)
    (w w' : world) (e : exn) :
  m w = (Raised e, w') -> c e = true -> try_except m c h w = h e w'.
Proof. intros H Hc. unfold try_except. now rewrite H, Hc. Qed.

Lemma bind_raised {A B} (m : M A) (k : A -> M B) (w w' : world) (e : exn) :
  m w = (Raised e, w') -> bind m k w = (Raised e, w').
Proof. intros H. unfold bind. now rewrite H. Qed.

(** [bind] on the outcome of its first computation. *)
Lemma bind_run {A B} (m : M A) (k : A -> M B) (w : world) :
  (x <- m ;; k x) w
  = match (m w).1 with
    | Done a => k a (m w).2
    | Raised e => (Raised e, (m w).2)
    | Running => (Running, (m w).2)
    end.
Proof. unfold bind. destruct (m w) as [[a|e|] w1]; reflexivity. Qed.

(** ** The connectors as a whole *)

Lemma now_set_wsa_events (f : gset Z -> gset Z) (w : world) :
  now (set_wsa_events f w) = now w.
Proof. reflexivity. Qed.

Lemma now_set_sockets (f : gset Z -> gset Z) (w : world) :
  now (set_sockets f w) = now w.
Proof. reflexivity. Qed.

Lemma now_connect_world (E : Env) (w : world) :
  now (connect_world E w) = S (S (S (S (now w)))).
Proof.
  unfold connect_world.
  now rewrite now_log, now_set_wsa_events, !now_log, now_set_sockets, now_log.
Qed.

Lemma connect_world_socket (E : Env) (w : world) :
  answer E c_socket (now w) ∈ sockets (connect_world E w).
Proof. cbn. apply elem_of_union_l, elem_of_singleton. reflexivity. Qed.

Lemma connect_world_trace (E : Env) (w : world) :
  trace (connect_world E w) = trace w ++ connect_prefix E w.
Proof.
  unfold connect_world, connect_prefix. cbn [trace log set_wsa_events set_sockets].
  now rewrite <- !app_assoc.
Qed.

(** Up to the native connect the connector is straight-line code: what
    is left then is the connect step, the wait step and the [finally]
    clause. *)
Lemma connector_at_connect (E : Env) (path : str) (enc : bytes) (w : world) :
  str_encode path = Some enc -> (length enc < SUN_PATH_MAX)%nat ->
  reaches_connect E w ->
  open_unix_connection_win E path w
  = try_finally
      (win_connect_step E (answer E c_socket (now w))
         (padded (socket_AF_UNIX E) enc) ;;
       win_await_step E (answer E c_socket (now w))
         (answer E c_WSACreateEvent (S (S (now w)))) ;;
       ret (AFUnixStream_init (answer E c_socket (now w))))
      (try_except (WSACloseEvent (answer E c_WSACreateEvent (S (S (now w)))))
         is_Exception (fun _ => ret tt))
      (connect_world E w).
Proof.
  intros He Hlt (Hs & Hev & Hsel).
  unfold open_unix_connection_win.
  step_with ltac:(apply socket_socket_ok; exact Hs).
  step_with ltac:(reflexivity).
  step_with ltac:(apply WSACreateEvent_ok;
                  rewrite now_log, now_set_sockets, now_log; exact Hev).
  rewrite now_log, now_set_sockets, now_log.
  rewrite (proj2 (Z.eqb_neq _ _) Hev). cbn [negb].
  unfold try_finally.
  step_with ltac:(apply sock_fileno_open; cbn; apply elem_of_union_l,
                  elem_of_singleton; reflexivity).
  step_with ltac:(apply WSAEventSelect_ok;
                  rewrite now_set_wsa_events, !now_log, now_set_sockets,
                    now_log; exact Hsel).
  step_with ltac:(reflexivity).
  step_with ltac:(apply win_address_step_short; [exact He | exact Hlt]).
  reflexivity.
Qed.

(** The [finally] clause of the connector closes the connect event and
    nothing else. *)
Lemma finally_closes_event {A} (body : M A) (ev : Z) (w : world) :
  try_finally body
    (try_except (WSACloseEvent ev) is_Exception (fun _ => ret tt)) w
  = match body w with
    | (Running, w') => (Running, w')
    | (r, w') =>
        (r, set_wsa_events (fun s => s ∖ {[ev]}) (log (e_WSACloseEvent ev) w'))
    end.
Proof.
  unfold try_finally. destruct (body w) as [[a|e|] w']; reflexivity.
Qed.

(** From a connect step that returned to the end of the connector: one
    wait, then the completion code. *)
Lemma connector_after_connect (E : Env) (h ev : Z) (addr : Sockaddr)
    (w w2 : world) :
  win_connect_step E h addr w = (Done tt, w2) ->
  h ∈ sockets w2 ->
  has_proactor E = true ->
  exists rest,
    trace (try_finally
             (win_connect_step E h addr ;; win_await_step E h ev ;;
              ret (AFUnixStream_init h))
             (try_except (WSACloseEvent ev) is_Exception (fun _ => ret tt))
             w).2
    = trace w2 ++ e_wait ev (answer E c_wait_for_handle (now w2)) :: rest
    /\ Forall (fun e => is_wait e = false) rest
    /\ (forall c,
          (try_finally
             (win_connect_step E h addr ;; win_await_step E h ev ;;
              ret (AFUnixStream_init h))
             (try_except (WSACloseEvent ev) is_Exception (fun _ => ret tt))
             w).1
          <> Raised (OSError c "ws2_32.connect failed"))
    /\ (forall s,
          (try_finally
             (win_connect_step E h addr ;; win_await_step E h ev ;;
              ret (AFUnixStream_init h))
             (try_except (WSACloseEvent ev) is_Exception (fun _ => ret tt))
             w).1
          = Done s ->
          s = AFUnixStream_init h
          /\ rest = [e_WSAEnumNetworkEvents h ev 0 (net_events E (S (now w2)));
                     e_WSACloseEvent ev]).
Proof.
  intros Hstep Hin Hp.
  rewrite finally_closes_event, (bind_done _ _ w w2 tt Hstep).
  unfold win_await_step. rewrite Hp. run_py. step_py.
  all: try match goal with
           | Hc : bool_decide _ = false |- _ =>
               exfalso; apply bool_decide_eq_false in Hc; apply Hc; exact Hin
           end.
  all: rewrite ?now_log.
  all: cbn [fst snd trace log set_wsa_events set_sockets];
    rewrite <- ?app_assoc; cbn [app].
  all: eexists; (split; [reflexivity|]).
  all: split; [repeat constructor|].
  all: split; [intros c; discriminate|].
  all: intros s; try discriminate.
  all: intros [= <-]; split; [reflexivity|].
  all: match goal with
       | Hz : negb ((_, _).1 =? 0) = false |- _ =>
           cbn [fst] in Hz; rewrite now_log in Hz;
           apply negb_false_iff, Z.eqb_eq in Hz; rewrite Hz
       end.
  all: reflexivity.
Qed.

Lemma filter_no_wait (l : list event) :
  Forall (fun e => is_wait e = false) l -> List.filter is_wait l = [].
Proof.
  induction 1 as [|e l He _ IH]; [reflexivity|].
  cbn. now rewrite He.
Qed.

(** C5 (amended): whenever [open_unix_connection_win] gets as far as
    the native connect (the socket and the event are created, the event
    is registered, the path fits the address) on a loop with a proactor,
    and the connect returns 0 at once or reports WSAEWOULDBLOCK, the
    connector waits on the connect event: exactly once over the whole
    call, right after the connect, in the immediate case as well as in
    the in-progress case.  The completion code is read after the wait,
    and an endpoint is returned only after both. *)
Theorem connect_waits_once_in_both_cases (E : Env) (path : str) (enc : bytes)
    (w : world) :
  str_encode path = Some enc ->
  (length enc < SUN_PATH_MAX)%nat ->
  reaches_connect E w ->
  has_proactor E = true ->
  answer E c_connect (S (S (S (S (now w))))) = 0
  \/ answer E c_WSAGetLastError (S (S (S (S (S (now w)))))) = WSAEWOULDBLOCK ->
  let h := answer E c_socket (now w) in
  let ev := answer E c_WSACreateEvent (S (S (now w))) in
  let rc := answer E c_connect (S (S (S (S (now w))))) in
  let connect_events :=
    e_connect h (padded (socket_AF_UNIX E) enc) rc
    :: (if rc =? 0 then [] else [e_WSAGetLastError WSAEWOULDBLOCK]) in
  let r := open_unix_connection_win E path w in
  exists wr rest,
    trace r.2
    = trace w ++ connect_prefix E w ++ connect_events ++ e_wait ev wr :: rest
    /\ Forall (fun e => is_wait e = false) rest
    /\ List.filter is_wait (drop (length (trace w)) (trace r.2)) = [e_wait ev wr]
    /\ (forall s,
          r.1 = Done s ->
          s = AFUnixStream_init h
          /\ exists ne, rest = [e_WSAEnumNetworkEvents h ev 0 ne; e_WSACloseEvent ev]).
Proof.
  intros He Hlt Hreach Hp Hcase h ev rc connect_events r.
  subst r. rewrite (connector_at_connect E path enc w He Hlt Hreach).
  fold h ev.
  pose proof (now_connect_world E w) as Hnow.
  pose proof (connect_world_socket E w) as Hin. fold h in Hin.
  pose proof (connect_world_trace E w) as Htr.
  assert (Hstep : exists w2,
             win_connect_step E h (padded (socket_AF_UNIX E) enc)
               (connect_world E w) = (Done tt, w2)
             /\ h ∈ sockets w2
             /\ trace w2 = trace (connect_world E w) ++ connect_events).
  { destruct (Z.eq_dec rc 0) as [Hz|Hnz].
    - eexists. split.
      + apply win_connect_step_immediate. rewrite Hnow. exact Hz.
      + split; [exact Hin|].
        subst connect_events. rewrite (bool_decide_eq_true_2 _ Hin).
        fold rc. rewrite Hz. reflexivity.
    - destruct Hcase as [Hz|Hwb]; [contradiction|].
      eexists. split.
      + apply win_connect_step_in_progress; rewrite Hnow; assumption.
      + split; [exact Hin|].
        subst connect_events. rewrite (bool_decide_eq_true_2 _ Hin).
        rewrite Hnow. fold rc.
        rewrite (proj2 (Z.eqb_neq _ _) Hnz).
        cbn [trace log]. now rewrite <- app_assoc. }
  destruct Hstep as (w2 & Hstep & Hin2 & Htr2).
  destruct (connector_after_connect E h ev _ _ w2 Hstep Hin2 Hp)
    as (rest & Hrest & Hnw & _ & Hdone).
  exists (answer E c_wait_for_handle (now w2)), rest.
  assert (Hall : forall X : list event,
             trace w2 ++ X = trace w ++ connect_prefix E w ++ connect_events ++ X).
  { intros X. rewrite Htr2, Htr, <- !app_assoc. reflexivity. }
  split; [rewrite Hrest; apply Hall|].
  split; [exact Hnw|].
  split.
  - rewrite Hrest, Hall, drop_app_length.
    rewrite !List.filter_app. cbn [List.filter is_wait].
    rewrite (filter_no_wait rest Hnw).
    subst connect_events. destruct (rc =? 0); reflexivity.
  - intros s Hs. destruct (Hdone s Hs) as [-> ->].
    split; [reflexivity|]. eexists. reflexivity.
Qed.

Lemma connect_waits_once_in_both_cases_witness :
  exists wr rest,
    trace (open_unix_connection_win env_nominal [47; 115] world0).2
    = connect_prefix env_nominal world0
      ++ [e_connect 5 (padded 1 [47; 115]) 0] ++ e_wait 9 wr :: rest
    /\ Forall (fun e => is_wait e = false) rest.
Proof.
  destruct (connect_waits_once_in_both_cases env_nominal [47; 115] [47; 115]
              world0 eq_refl)
    as (wr & rest & Htr & Hnw & _).
  - vm_compute. lia.
  - repeat split; vm_compute; congruence.
  - reflexivity.
  - left. reflexivity.
  - exists wr, rest. split; [exact Htr | exact Hnw].
Defined.

Lemma win_connect_step_failed_run (E : Env) (h : Z) (addr : Sockaddr)
    (w : world) :
  h ∈ sockets w ->
  answer E c_connect (now w) <> 0 ->
  answer E c_WSAGetLastError (S (now w)) <> WSAEWOULDBLOCK ->
  win_connect_step E h addr w
  = (Raised (OSError (Some (answer E c_WSAGetLastError (S (now w))))
                     "ws2_32.connect failed"),
     set_sockets (fun s => s ∖ {[h]})
       (log (e_sock_close h)
          (log (e_WSAGetLastError (answer E c_WSAGetLastError (S (now w))))
             (log (e_connect h addr (answer E c_connect (now w))) w)))).
Proof.
  intros Hin Hr He. unfold win_connect_step. run_py.
  rewrite (bool_decide_eq_true_2 _ Hin). cbn beta iota zeta.
  rewrite (proj2 (Z.eqb_neq _ _) Hr). cbn [negb]. cbn beta iota zeta.
  rewrite now_log.
  destruct (Z.eqb_spec (answer E c_WSAGetLastError (S (now w))) 10035)
    as [|_]; [contradiction|].
  cbn [negb]. cbn beta iota zeta.
  cbn [sockets log]. rewrite (bool_decide_eq_true_2 _ Hin). reflexivity.
Qed.

(** The Winsock path of [open_unix_connection], entered in world [w]:
    any nonzero return of the native connect closes the handle and
    raises. *)
Lemma unix_winsock_connect_failed (E : Env) (path : str) (enc : bytes)
    (w : world) :
  str_encode path = Some enc ->
  (length enc < UNIX_PATH_MAX)%nat ->
  answer E c_socket (now w) <> 0 ->
  answer E c_socket (now w) <> -1 ->
  answer E c_connect (S (now w)) <> 0 ->
  unix_winsock_connect E path w
  = (Raised (OSError None "ws2_32.connect failed"),
     set_sockets (fun s => s ∖ {[answer E c_socket (now w)]})
       (log (e_closesocket (answer E c_socket (now w)))
          (log (e_WSAGetLastError
                  (answer E c_WSAGetLastError (S (S (now w)))))
             (log (e_connect (answer E c_socket (now w))
                     (padded (socket_AF_UNIX E) enc)
                     (answer E c_connect (S (now w))))
                (set_sockets (union {[answer E c_socket (now w)]})
                   (log (e_ws2_socket (answer E c_socket (now w))) w)))))).
Proof.
  intros He Hlt H0 H1 Hr.
  unfold unix_winsock_connect, unix_connect_step.
  assert (Hs : ws2_32_socket E (socket_AF_UNIX E) w
               = (Done (answer E c_socket (now w)),
                  set_sockets (union {[answer E c_socket (now w)]})
                    (log (e_ws2_socket (answer E c_socket (now w))) w))).
  { unfold ws2_32_socket. run_py.
    rewrite (proj2 (Z.eqb_neq _ _) H0), (proj2 (Z.eqb_neq _ _) H1).
    reflexivity. }
  step_with ltac:(exact Hs).
  rewrite (proj2 (Z.eqb_neq _ _) H0), (proj2 (Z.eqb_neq _ _) H1).
  cbn [orb].
  step_with ltac:(reflexivity).
  step_with ltac:(apply unix_address_step_short; [exact He | exact Hlt]).
  run_py. rewrite now_set_sockets, now_log.
  rewrite (proj2 (Z.eqb_neq _ _) Hr). cbn [negb]. cbn beta iota zeta.
  rewrite !now_log, now_set_sockets, now_log.
  reflexivity.
Qed.



(** ** One wake-up of [AFUnixServerWin._accept_loop], any handler *)

Lemma accept_log_app (a b : list event) :
  accept_log (a ++ b) = accept_log a ++ accept_log b.
Proof. apply omap_app. Qed.

Lemma callback_log_app (a b : list event) :
  callback_log (a ++ b) = callback_log a ++ callback_log b.
Proof. apply omap_app. Qed.

Lemma coroutines_of_app (cb : callback) (a b : list Z) :
  coroutines_of cb (a ++ b) = coroutines_of cb a ++ coroutines_of cb b.
Proof. apply omap_app. Qed.

(** One accepted connection, whatever the wrap and the handler do. *)
Lemma accept_one_run (E : Env) (self : AFUnixServerWin) (cb : callback)
    (h : Z) (w : world) :
  h ∈ sockets w ->
  exists ext,
    trace (accept_one E self cb h w).2 = trace w ++ ext
    /\ accept_log ext = []
    /\ List.filter is_wait ext = []
    /\ pending (accept_one E self cb h w).2 = pending w
    /\ match (accept_one E self cb h w).1 with
       | Done _ =>
           callback_log ext = [AFUnixStream_init h]
           /\ (exists res, cb (AFUnixStream_init h) = Ok res)
           /\ tasks (accept_one E self cb h w).2
              = tasks w ++ coroutines_of cb [h]
           /\ sockets (accept_one E self cb h w).2 = sockets w
       | Raised e =>
           tasks (accept_one E self cb h w).2 = tasks w
           /\ ((cb (AFUnixStream_init h) = Raise e
                /\ callback_log ext = [AFUnixStream_init h]
                /\ sockets (accept_one E self cb h w).2 = sockets w ∖ {[h]})
               \/ (e = OSError (Some (answer E c_wrap (now w))) "socket(fileno)"
                   /\ answer E c_wrap (now w) <> 0
                   /\ callback_log ext = []
                   /\ sockets (accept_one E self cb h w).2 = sockets w))
       | Running => False
       end.
Proof.
  intros Hin.
  unfold accept_one, AFUnixStream_close, AFUnixStream_init, coroutines_of.
  cbn [st_closed st_sock negb omap].
  destruct (cb {| st_sock := h; st_closed := false |}) as [[c|]|e] eqn:Hcb.
  all: run_py; rewrite ?Hcb; run_py; step_py.
  all: try match goal with
           | Hc : bool_decide _ = false |- _ =>
               exfalso; apply bool_decide_eq_false in Hc; apply Hc; exact Hin
           end.
  all: cbn [fst snd trace log set_sockets add_task tasks pending sockets];
    rewrite <- ?app_assoc; cbn [app].
  all: eexists; (split; [reflexivity|]).
  all: split; [reflexivity|].
  all: split; [reflexivity|].
  all: split; [reflexivity|].
  all: cbn [list_omap]; unfold AFUnixStream_init.
  all: try match goal with
           | Hc : _ = Ok _ |- _ => rewrite Hc
           end.
  all: rewrite ?app_nil_r.
  all: first
         [ split; [reflexivity|]; split; [eexists; reflexivity|];
           split; reflexivity
         | split; [reflexivity|]; left; repeat split; reflexivity
         | split; [reflexivity|]; right; split; [reflexivity|];
           split; [|split; reflexivity];
           match goal with
           | Hz : (_ =? 0) = false |- _ => apply Z.eqb_neq in Hz; exact Hz
           end ].
Qed.

Lemma ws2_32_accept_pop (E : Env) (s h : Z) (q : list Z) (w : world) :
  pending w = h :: q -> h <> INVALID_SOCKET E ->
  ws2_32_accept E s w
  = (Done h, set_sockets (union {[h]}) (log (e_accept s h) (set_pending q w))).
Proof.
  intros Hq Hh. unfold ws2_32_accept. run_py. rewrite Hq.
  cbn beta iota zeta. now rewrite (proj2 (Z.eqb_neq _ _) Hh).
Qed.

Lemma accept_all_next (E : Env) (self : AFUnixServerWin) (cb : callback)
    (n : nat) (h : Z) (q : list Z) (w : world) :
  pending w = h :: q -> srv_sock self ∈ sockets w -> h <> INVALID_SOCKET E ->
  accept_all E (S n) self cb w
  = (accept_one E self cb h ;; accept_all E n self cb)
      (set_sockets (union {[h]})
         (log (e_accept (srv_sock self) h) (set_pending q w))).
Proof.
  intros Hq Hfd Hh. cbn [accept_all].
  step_with ltac:(apply sock_fileno_open; exact Hfd).
  step_with ltac:(apply ws2_32_accept_pop; [exact Hq | exact Hh]).
  now rewrite (proj2 (Z.eqb_neq _ _) Hh).
Qed.

Lemma accept_all_none (E : Env) (self : AFUnixServerWin) (cb : callback)
    (n : nat) (w : world) :
  pending w = [] -> srv_sock self ∈ sockets w ->
  accept_all E (S n) self cb w
  = (Done tt, log (e_accept (srv_sock self) (INVALID_SOCKET E)) w).
Proof.
  intros Hq Hfd. cbn [accept_all].
  step_with ltac:(apply sock_fileno_open; exact Hfd).
  unfold ws2_32_accept. run_py. rewrite Hq. cbn beta iota zeta.
  now rewrite Z.eqb_refl.
Qed.

(** The drain, for every handler and every answer of the operating
    system: it takes the queued connections in order and either empties
    the queue or stops at the first connection whose wrap fails or whose
    handler raises. *)
Lemma accept_all_run (E : Env) (self : AFUnixServerWin) (cb : callback)
    (q : list Z) :
  forall (k : nat) (w : world),
    pending w = q ->
    srv_sock self ∈ sockets w ->
    Forall (fun h => h <> INVALID_SOCKET E) q ->
    (length q < k)%nat ->
    exists ext,
      trace (accept_all E k self cb w).2 = trace w ++ ext
      /\ List.filter is_wait ext = []
      /\ match (accept_all E k self cb w).1 with
         | Done _ =>
             pending (accept_all E k self cb w).2 = []
             /\ accept_log ext = q ++ [INVALID_SOCKET E]
             /\ callback_log ext = map AFUnixStream_init q
             /\ Forall (fun h => exists res, cb (AFUnixStream_init h) = Ok res) q
             /\ tasks (accept_all E k self cb w).2
                = tasks w ++ coroutines_of cb q
         | Raised e =>
             exists q1 h q2,
               q = q1 ++ h :: q2
               /\ pending (accept_all E k self cb w).2 = q2
               /\ accept_log ext = q1 ++ [h]
               /\ tasks (accept_all E k self cb w).2
                  = tasks w ++ coroutines_of cb q1
               /\ ((cb (AFUnixStream_init h) = Raise e
                    /\ callback_log ext = map AFUnixStream_init (q1 ++ [h])
                    /\ h ∉ sockets (accept_all E k self cb w).2)
                   \/ ((exists t, answer E c_wrap t <> 0
                        /\ e = OSError (Some (answer E c_wrap t))
                                       "socket(fileno)")
                       /\ callback_log ext = map AFUnixStream_init q1
                       /\ h ∈ sockets (accept_all E k self cb w).2))
         | Running => False
         end.
Proof.
  induction q as [|h q IH]; intros k w Hq Hfd Hvalid Hk.
  - destruct k as [|k]; [simpl in Hk; lia|].
    rewrite (accept_all_none E self cb k w Hq Hfd). cbn [fst snd trace log].
    eexists. split; [reflexivity|]. split; [reflexivity|].
    split; [exact Hq|]. split; [reflexivity|]. split; [reflexivity|].
    split; [constructor|]. cbn. now rewrite app_nil_r.
  - destruct k as [|k]; [simpl in Hk; lia|].
    inversion Hvalid as [|? ? Hh Hrest]; subst.
    rewrite (accept_all_next E self cb k h q w Hq Hfd Hh).
    set (wa := set_sockets (union {[h]})
                 (log (e_accept (srv_sock self) h) (set_pending q w))).
    assert (Hha : h ∈ sockets wa)
      by (cbn; apply elem_of_union_l, elem_of_singleton; reflexivity).
    destruct (accept_one_run E self cb h wa Hha)
      as (ext1 & Htr1 & Hacc1 & Hw1 & Hp1 & Hout1).
    rewrite bind_run.
    destruct ((accept_one E self cb h wa).1) as [[]|e|] eqn:Hone.
    + destruct Hout1 as (Hcb1 & Hok1 & Ht1 & Hs1).
      set (w1 := (accept_one E self cb h wa).2) in *.
      destruct (IH k w1) as (ext2 & Htr2 & Hw2 & Hout2).
      { rewrite Hp1. reflexivity. }
      { rewrite Hs1. cbn. now apply elem_of_union_r. }
      { exact Hrest. }
      { simpl in Hk. lia. }
      exists (e_accept (srv_sock self) h :: ext1 ++ ext2).
      split.
      { rewrite Htr2, Htr1. cbn [wa trace set_sockets log set_pending].
        rewrite <- !app_assoc. reflexivity. }
      split.
      { cbn [List.filter is_wait]. rewrite List.filter_app, Hw1, Hw2.
        reflexivity. }
      destruct ((accept_all E k self cb w1).1) as [[]|e|].
      * destruct Hout2 as (Hp2 & Ha2 & Hc2 & Hall2 & Ht2).
        split; [exact Hp2|].
        split.
        { change (accept_log (e_accept (srv_sock self) h :: ext1 ++ ext2))
            with (h :: accept_log (ext1 ++ ext2)).
          rewrite accept_log_app, Hacc1, Ha2. reflexivity. }
        split.
        { change (callback_log (e_accept (srv_sock self) h :: ext1 ++ ext2))
            with (callback_log (ext1 ++ ext2)).
          rewrite callback_log_app, Hcb1, Hc2. reflexivity. }
        split; [constructor; assumption|].
        rewrite Ht2, Ht1.
        change (h :: q) with ([h] ++ q).
        rewrite coroutines_of_app, <- app_assoc. reflexivity.
      * destruct Hout2 as (q1 & h' & q2 & Hsplit & Hp2 & Ha2 & Ht2 & Hwhy).
        exists (h :: q1), h', q2.
        split; [rewrite Hsplit; reflexivity|].
        split; [exact Hp2|].
        split.
        { change (accept_log (e_accept (srv_sock self) h :: ext1 ++ ext2))
            with (h :: accept_log (ext1 ++ ext2)).
          rewrite accept_log_app, Hacc1, Ha2. reflexivity. }
        split.
        { rewrite Ht2, Ht1.
          change (h :: q1) with ([h] ++ q1).
          rewrite coroutines_of_app, <- app_assoc. reflexivity. }
        change (callback_log (e_accept (srv_sock self) h :: ext1 ++ ext2))
          with (callback_log (ext1 ++ ext2)).
        rewrite callback_log_app, Hcb1.
        destruct Hwhy as [(Hr & Hc2 & Hs2)|(Hr & Hc2 & Hs2)].
        -- left. split; [exact Hr|]. split; [|exact Hs2].
           rewrite Hc2. reflexivity.
        -- right. split; [exact Hr|]. split; [|exact Hs2].
           rewrite Hc2. reflexivity.
      * contradiction.
    + destruct Hout1 as (Ht1 & Hwhy).
      exists (e_accept (srv_sock self) h :: ext1).
      cbn [fst snd].
      split.
      { rewrite Htr1. cbn [wa trace set_sockets log set_pending].
        rewrite <- !app_assoc. reflexivity. }
      split.
      { cbn [List.filter is_wait]. exact Hw1. }
      exists [], h, q.
      split; [reflexivity|].
      split; [rewrite Hp1; reflexivity|].
      split.
      { change (accept_log (e_accept (srv_sock self) h :: ext1))
          with (h :: accept_log ext1).
        now rewrite Hacc1. }
      split; [rewrite Ht1; cbn; now rewrite app_nil_r|].
      change (callback_log (e_accept (srv_sock self) h :: ext1))
        with (callback_log ext1).
      destruct Hwhy as [(Hr & Hc & Hs)|(Hr & Hnz & Hc & Hs)].
      * left. split; [exact Hr|]. split; [exact Hc|].
        rewrite Hs. intros [_ Hn]%elem_of_difference.
        apply Hn, elem_of_singleton. reflexivity.
      * right. split; [eexists; split; [exact Hnz | exact Hr]|].
        split; [exact Hc|]. rewrite Hs. exact Hha.
    + contradiction.
Qed.

(** One wake-up that reports FD_ACCEPT, for every handler: what it
    logs, and how it ends. *)
Lemma accept_wakeup_run (E : Env) (self : AFUnixServerWin)
    (cb : callback) (k : nat) (w : world) :
  srv_sock self ∈ sockets w ->
  answer E c_wait_for_handle (now w) = 0 ->
  answer E c_WSAEnumNetworkEvents (S (now w)) = 0 ->
  Z.land (lNetworkEvents (net_events E (S (now w)))) FD_CLOSE = 0 ->
  Z.land (lNetworkEvents (net_events E (S (now w)))) FD_ACCEPT <> 0 ->
  Forall (fun h => h <> INVALID_SOCKET E) (pending w) ->
  (length (pending w) < k)%nat ->
  let ev := default 0 (srv_accept_event self) in
  let q := pending w in
  let r := accept_wakeup E k self cb w in
  exists ext,
     trace r.2
     = trace w
       ++ [e_wait ev 0;
           e_WSAEnumNetworkEvents (srv_sock self) ev 0
             (net_events E (S (now w)))]
       ++ ext
     /\ List.filter is_wait ext = []
     /\ match r.1 with
        | Done ctl =>
            ctl = Continue
            /\ pending r.2 = []
            /\ accept_log ext = q ++ [INVALID_SOCKET E]
            /\ callback_log ext = map AFUnixStream_init q
            /\ Forall (fun h => exists res, cb (AFUnixStream_init h) = Ok res) q
            /\ tasks r.2 = tasks w ++ coroutines_of cb q
            /\ (srv_closed self = false ->
                forall n, exists rest,
                  trace (accept_while E k (S (S n)) self cb w).2
                  = trace r.2
                    ++ e_wait ev (answer E c_wait_for_handle (now r.2)) :: rest)
        | Raised e =>
            exists q1 h q2,
              q = q1 ++ h :: q2
              /\ pending r.2 = q2
              /\ accept_log ext = q1 ++ [h]
              /\ tasks r.2 = tasks w ++ coroutines_of cb q1
              /\ ((cb (AFUnixStream_init h) = Raise e
                   /\ callback_log ext = map AFUnixStream_init (q1 ++ [h])
                   /\ h ∉ sockets r.2)
                  \/ ((exists t, answer E c_wrap t <> 0
                       /\ e = OSError (Some (answer E c_wrap t))
                                      "socket(fileno)")
                      /\ callback_log ext = map AFUnixStream_init q1
                      /\ h ∈ sockets r.2))
        | Running => False
        end.
Proof.
  intros Hfd Hwait Henum Hclose Haccept Hvalid Hk ev q r.
  set (fd := srv_sock self).
  set (ne := net_events E (S (now w))).
  set (w1 := log (e_wait ev 0) w).
  set (w2 := log (e_WSAEnumNetworkEvents fd ev 0 ne) w1).
  assert (Hrun : r = (accept_all E k self cb ;; ret Continue) w2).
  { subst r. unfold accept_wakeup. fold ev fd.
    rewrite (bind_done _ _ w w1 tt)
      by (unfold wait_for_handle; run_py; now rewrite Hwait).
    rewrite (bind_done _ _ w1 w1 fd)
      by (unfold sock_fileno; run_py;
          now rewrite (bool_decide_eq_true_2 _ Hfd)).
    rewrite (bind_done _ _ w1 w2 (0, ne)).
    2:{ unfold WSAEnumNetworkEvents. run_py. unfold w1.
        rewrite !now_log, Henum. reflexivity. }
    cbn [fst snd].
    rewrite (bind_done _ _ w2 w2 tt) by reflexivity.
    fold ne in Hclose, Haccept. rewrite Hclose.
    rewrite (proj2 (Z.eqb_neq _ _) Haccept). cbn [negb Z.eqb].
    reflexivity. }
  destruct (accept_all_run E self cb q k w2 eq_refl Hfd Hvalid Hk)
    as (ext & Htr & Hnw & Hout).
  exists ext.
  rewrite Hrun, bind_run.
  destruct ((accept_all E k self cb w2).1) as [[]|e|] eqn:Hall;
    cbn [fst snd ret].
  - split; [rewrite Htr; unfold w2, w1; cbn [trace log];
            rewrite <- !app_assoc; reflexivity|].
    split; [exact Hnw|].
    destruct Hout as (Hp & Ha & Hc & Hok & Ht).
    split; [reflexivity|]. split; [exact Hp|]. split; [exact Ha|].
    split; [exact Hc|]. split; [exact Hok|]. split; [exact Ht|].
    intros Hopen n. cbn [accept_while]. rewrite Hopen. cbn [negb].
    assert (Hr : accept_wakeup E k self cb w
                 = (Done Continue, (accept_all E k self cb w2).2)).
    { change (accept_wakeup E k self cb w) with r.
      rewrite Hrun, bind_run, Hall. reflexivity. }
    rewrite (bind_done _ _ _ _ _ Hr).
    apply (bind_first_event (accept_wakeup E k self cb) _
             (e_wait ev (answer E c_wait_for_handle
                           (now (accept_all E k self cb w2).2)))).
    + destruct (accept_wakeup_waits_first E self cb k
                  (accept_all E k self cb w2).2) as [rest Hrest].
      exists rest. exact Hrest.
    + intros [|]; [apply extends_accept_while | apply extends_ret].
  - split; [rewrite Htr; unfold w2, w1; cbn [trace log];
            rewrite <- !app_assoc; reflexivity|].
    split; [exact Hnw|]. exact Hout.
  - contradiction.
Qed.



(** ** A start on an existing entry that does not succeed *)

Lemma os_unlink_fails (E : Env) (path : str) (enc : bytes) (w : world) :
  str_encode path = Some enc ->
  answer E c_unlink (now w) <> 0 ->
  os_unlink E path w
  = (Raised (OSError (Some (answer E c_unlink (now w))) "unlink"),
     log (e_unlink path (answer E c_unlink (now w))) w).
Proof.
  intros He Ha. unfold os_unlink. rewrite He. run_py.
  now rewrite (proj2 (Z.eqb_neq _ _) Ha).
Qed.

(** [AFUnixServerWin.__init__] lets a failing unlink out: nothing is
    bound. *)
Lemma init_unlink_fails (E : Env) (path : str) (enc : bytes) (backlog : Z)
    (w : world) :
  str_encode path = Some enc ->
  (os_path_exists path w).1 = Done true ->
  answer E c_unlink (now w) <> 0 ->
  AFUnixServerWin_init E path backlog true w
  = (Raised (OSError (Some (answer E c_unlink (now w))) "unlink"),
     log (e_unlink path (answer E c_unlink (now w))) w).
Proof.
  intros He Hex Ha.
  destruct (os_path_exists_true path w Hex) as [Hex' _].
  unfold AFUnixServerWin_init.
  step_with ltac:(exact Hex').
  now rewrite (bind_raised _ _ _ _ _ (os_unlink_fails E path enc w He Ha)).
Qed.

(** [WindowsUnixServer.start] swallows a failing unlink and binds with
    the entry still there. *)
Lemma wus_start_unlink_swallowed (E : Env) (self : WindowsUnixServer)
    (enc : bytes) (w : world) :
  str_encode (wus_path self) = Some enc ->
  (length enc < SUN_PATH_MAX)%nat ->
  (os_path_exists (wus_path self) w).1 = Done true ->
  wsa_started w = true ->
  answer E c_unlink (now w) <> 0 ->
  0 <= answer E c_socket (S (now w)) ->
  exists w',
    WindowsUnixServer_start E self w = (Raised (OSError None "bind failed"), w')
    /\ enc ∈ files w'
    /\ trace w'
       = trace w
         ++ [e_unlink (wus_path self) (answer E c_unlink (now w));
             e_socket (answer E c_socket (S (now w)));
             e_setblocking (answer E c_socket (S (now w))) false;
             e_bind (answer E c_socket (S (now w)))
               (padded (socket_AF_UNIX E) enc) (-1)].
Proof.
  intros He Hlt Hex Hst Ha Hs.
  destruct (os_path_exists_true _ w Hex) as (Hex' & enc' & He' & Hnul & Hin).
  assert (enc' = enc) as -> by congruence.
  unfold WindowsUnixServer_start.
  step_with ltac:(unfold ensure_wsa_started; run_py; rewrite Hst; reflexivity).
  step_with ltac:(exact Hex').
  step_with ltac:(erewrite try_except_raised;
                  [reflexivity | apply (os_unlink_fails E _ enc); assumption
                  | reflexivity]).
  step_with ltac:(apply socket_socket_ok; rewrite now_log; exact Hs).
  step_with ltac:(reflexivity).
  rewrite (proj1 (encode_address_short (socket_AF_UNIX E) _ enc He Hlt)).
  step_with ltac:(reflexivity).
  step_with ltac:(apply sock_fileno_open; cbn; apply elem_of_union_l,
                  elem_of_singleton; reflexivity).
  step_with ltac:(apply ws2_32_bind_taken;
                  rewrite c_str_padded, c_str_no_nul by exact Hnul;
                  exact Hin).
  cbn [negb Z.eqb]. rewrite now_log.
  eexists. split; [reflexivity|]. split; [exact Hin|].
  cbn [trace log set_sockets]. now rewrite <- !app_assoc.
Qed.

(** A path too long for the address is found out only after the
    existing entry has been removed and the socket created. *)
Lemma init_long_path_run (E : Env) (path : str) (enc : bytes) (backlog : Z)
    (w : world) :
  str_encode path = Some enc ->
  (SUN_PATH_MAX <= length enc)%nat ->
  (os_path_exists path w).1 = Done true ->
  answer E c_unlink (now w) = 0 ->
  0 <= answer E c_socket (S (now w)) ->
  exists w',
    AFUnixServerWin_init E path backlog true w
    = (Raised (ValueError "AF_UNIX path too long"), w')
    /\ (enc ∉ files w')
    /\ trace w'
       = trace w
         ++ [e_unlink path 0; e_socket (answer E c_socket (S (now w)));
             e_setblocking (answer E c_socket (S (now w))) false].
Proof.
  intros He Hlong Hex Hunlink Hsock.
  destruct (os_path_exists_true path w Hex) as (Hex' & enc' & He' & Hnul & Hin).
  assert (enc' = enc) as -> by congruence.
  unfold AFUnixServerWin_init.
  step_with ltac:(exact Hex').
  step_with ltac:(apply (os_unlink_ok E path enc); assumption).
  assert (Hnow : now (set_files (fun s => s ∖ {[enc]})
                        (log (e_unlink path 0) w)) = S (now w))
    by apply now_log.
  step_with ltac:(apply socket_socket_ok; rewrite Hnow; exact Hsock).
  step_with ltac:(reflexivity).
  rewrite (proj1 (encode_address_long (socket_AF_UNIX E) path enc He Hlong)).
  rewrite Hnow. eexists. split; [reflexivity|]. cbn.
  split.
  { intros [_ Hn]%elem_of_difference. apply Hn. now apply elem_of_singleton. }
  now rewrite <- !app_assoc.
Qed.

(** C8, as written: an entry exists at the path and the start does not
    succeed.  [WindowsUnixServer.start] on an entry that cannot be
    removed ([os.unlink] fails with errno 13) swallows the error, binds
    with the entry still present and fails in bind.
    [AFUnixServerWin.__init__] with unlink-existing on, on an existing
    path of 108 bytes, removes the entry and then raises [ValueError]. *)
Lemma start_on_existing_entry_can_fail :
  let E := env_with (fun c => match c with
                              | c_socket => 5 | c_unlink => 13 | _ => 0
                              end) connect_done in
  let r := WindowsUnixServer_start E (mkWUServer [47; 115] None false None)
             (mkWorld {[ [47; 115] ]} ∅ ∅ [] [] true []) in
  let long : str := replicate 108 97 in
  let r2 := AFUnixServerWin_init env_nominal long 100 true
              (mkWorld {[ long ]} ∅ ∅ [] [] false []) in
  r.1 = Raised (OSError None "bind failed")
  /\ trace r.2
     = [e_unlink [47; 115] 13; e_socket 5; e_setblocking 5 false;
        e_bind 5 (padded 1 [47; 115]) (-1)]
  /\ [47; 115] ∈ files r.2
  /\ r2.1 = Raised (ValueError "AF_UNIX path too long")
  /\ trace r2.2 = [e_unlink long 0; e_socket 5; e_setblocking 5 false]
  /\ (long ∉ files r2.2).
Proof.
  split; [reflexivity|]. split; [reflexivity|]. split; [by_compute|].
  split; [reflexivity|]. split; [reflexivity | by_compute].
Qed.

(** C8 (amended): when an entry exists at the path and unlink-existing
    is on, the unlink is the first native call of
    [AFUnixServerWin.__init__], so it comes before any bind.  Where the
    path fits the address and the operating system refuses nothing of
    its own, the entry is gone when bind is called, bind answers 0 and
    recreates the socket file, and the constructor returns the
    listener; with unlink-existing off the same start fails in bind;
    [WindowsUnixServer.start], which always unlinks, succeeds in the
    same way.  The start does not succeed in every case.  When the
    unlink fails, the constructor raises its error with nothing bound,
    whereas [WindowsUnixServer.start] (Winsock already started)
    swallows the error and binds with the entry still present, which
    fails.  When the encoded path has 108 bytes or more, the constructor
    removes the entry, creates the socket and then raises
    [ValueError]. *)
Theorem stale_entry_removed_before_bind (E : Env) (path : str) (enc : bytes)
    (backlog : Z) (w : world) :
  str_encode path = Some enc ->
  (os_path_exists path w).1 = Done true ->
  (exists rest,
     trace (AFUnixServerWin_init E path backlog true w).2
     = trace w ++ e_unlink path (answer E c_unlink (now w)) :: rest)
  /\ (cooperative E -> (length enc < SUN_PATH_MAX)%nat ->
      (exists srv w' sock ev,
         AFUnixServerWin_init E path backlog true w = (Done srv, w')
         /\ srv_sock srv = sock
         /\ srv_accept_event srv = Some ev
         /\ trace w'
            = trace w
              ++ [e_unlink path 0; e_socket sock; e_setblocking sock false;
                  e_bind sock (padded (socket_AF_UNIX E) enc) 0;
                  e_listen sock backlog 0; e_WSACreateEvent ev;
                  e_WSAEventSelect sock ev (Z.lor FD_ACCEPT FD_CLOSE) 0]
         /\ enc ∈ files w'
         /\ sock ∈ sockets w')
      /\ (exists err,
            (AFUnixServerWin_init E path backlog false w).1
            = Raised (OSError (Some err) "ws2_32.bind failed"))
      /\ (forall self,
            wus_path self = path ->
            exists srv w' sock,
              WindowsUnixServer_start E self w = (Done srv, w')
              /\ wus_sock srv = Some sock
              /\ trace w'
                 = trace w
                   ++ (if wsa_started w then [] else [e_WSAStartup 0])
                   ++ [e_unlink path 0; e_socket sock;
                       e_setblocking sock false;
                       e_bind sock (padded (socket_AF_UNIX E) enc) 0;
                       e_listen sock 5 0;
                       e_create_task (accept_loop_coro sock)]
              /\ enc ∈ files w'))
  /\ (answer E c_unlink (now w) <> 0 ->
      AFUnixServerWin_init E path backlog true w
      = (Raised (OSError (Some (answer E c_unlink (now w))) "unlink"),
         log (e_unlink path (answer E c_unlink (now w))) w)
      /\ (forall self,
            wus_path self = path ->
            (length enc < SUN_PATH_MAX)%nat ->
            wsa_started w = true ->
            0 <= answer E c_socket (S (now w)) ->
            exists w',
              WindowsUnixServer_start E self w
              = (Raised (OSError None "bind failed"), w')
              /\ enc ∈ files w'
              /\ trace w'
                 = trace w
                   ++ [e_unlink path (answer E c_unlink (now w));
                       e_socket (answer E c_socket (S (now w)));
                       e_setblocking (answer E c_socket (S (now w))) false;
                       e_bind (answer E c_socket (S (now w)))
                         (padded (socket_AF_UNIX E) enc) (-1)]))
  /\ ((SUN_PATH_MAX <= length enc)%nat ->
      answer E c_unlink (now w) = 0 ->
      0 <= answer E c_socket (S (now w)) ->
      exists w',
        AFUnixServerWin_init E path backlog true w
        = (Raised (ValueError "AF_UNIX path too long"), w')
        /\ (enc ∉ files w')
        /\ trace w'
           = trace w
             ++ [e_unlink path 0; e_socket (answer E c_socket (S (now w)));
                 e_setblocking (answer E c_socket (S (now w))) false]).
Proof.
  intros He Hex.
  split; [now apply (init_unlink_is_first E path enc)|].
  split.
  { intros Hcoop Hlt.
    destruct (os_path_exists_true path w Hex) as (_ & enc' & He' & Hnul & Hin).
    assert (enc' = enc) as -> by congruence.
    split; [apply (init_unlinks_then_binds E path enc w); assumption|].
    split; [apply (init_without_unlink_fails E path enc w); assumption|].
    intros self Hself.
    apply (wus_start_unlinks_then_binds E path enc w); assumption. }
  split.
  { intros Ha.
    split; [now apply (init_unlink_fails E path enc)|].
    intros self Hself Hlt Hst Hs. subst path.
    now apply wus_start_unlink_swallowed. }
  intros Hlong Ha Hs. now apply init_long_path_run.
Qed.
Lemma stale_entry_removed_before_bind_witness :
  let w := mkWorld {[ [47; 115] ]} ∅ ∅ [] [] false [] in
  exists srv w',
    AFUnixServerWin_init env_nominal [47; 115] 100 true w = (Done srv, w')
    /\ trace w'
       = [e_unlink [47; 115] 0; e_socket 5; e_setblocking 5 false;
          e_bind 5 (padded 1 [47; 115]) 0; e_listen 5 100 0;
          e_WSACreateEvent 9; e_WSAEventSelect 5 9 40 0].
Proof.
  intros w.
  destruct (stale_entry_removed_before_bind env_nominal [47; 115] [47; 115]
              100 w eq_refl) as (_ & Hok & _).
  - vm_compute. reflexivity.
  - destruct (Hok env_nominal_cooperative) as [Hinit _].
    + simpl. unfold SUN_PATH_MAX. lia.
    + destruct Hinit as (srv & w' & sock & ev & Hrun & Hs & Hev & Htr & _).
      exists srv, w'. split; [exact Hrun|].
      assert (Hv : AFUnixServerWin_init env_nominal [47; 115] 100 true w
                   = (Done (mkServer [47; 115] 100 true None false 5 (Some 9)),
                      w')).
      { rewrite Hrun. f_equal. f_equal.
        assert (Hc : (AFUnixServerWin_init env_nominal [47; 115] 100 true w).1
                     = Done (mkServer [47; 115] 100 true None false 5 (Some 9)))
          by (vm_compute; reflexivity).
        rewrite Hrun in Hc. cbn in Hc. now inversion Hc. }
      rewrite Hrun in Hv. inversion Hv; subst srv.
      cbn in Hs, Hev. subst sock. inversion Hev; subst ev.
      exact Htr.
Defined.

(** * Further properties *)

(** ** The address codec *)

Lemma str_encode_app (a b : str) :
  str_encode (a ++ b)
  = match str_encode a, str_encode b with
    | Some ea, Some eb => Some (ea ++ eb)
    | _, _ => None
    end.
Proof.
  induction a as [|c a IH]; cbn [app str_encode].
  - now destruct (str_encode b).
  - rewrite IH. destruct (utf8_encode_char c) as [ec|].
    + destruct (str_encode a) as [ea|]; [|reflexivity].
      destruct (str_encode b) as [eb|]; [|reflexivity].
      now rewrite app_assoc.
    + now destruct (str_encode a), (str_encode b).
Qed.

Lemma utf8_encode_char_length (c : Z) (b : bytes) :
  utf8_encode_char c = Some b -> (1 <= length b <= 4)%nat.
Proof.
  unfold utf8_encode_char. intros H.
  repeat (case_match; simplify_eq); cbn; lia.
Qed.

Lemma str_encode_length (path : str) (enc : bytes) :
  str_encode path = Some enc ->
  (length path <= length enc <= 4 * length path)%nat.
Proof.
  revert enc. induction path as [|c path IH]; intros enc H; cbn in H.
  - injection H as <-. cbn. lia.
  - destruct (utf8_encode_char c) as [b|] eqn:Hc; [|discriminate].
    destruct (str_encode path) as [bs|]; [|discriminate].
    injection H as <-. specialize (IH bs eq_refl).
    pose proof (utf8_encode_char_length c b Hc).
    rewrite length_app. cbn [length]. lia.
Qed.

Lemma str_encode_ascii (path : str) :
  Forall (fun c => 0 <= c < 128) path -> str_encode path = Some path.
Proof.
  induction 1 as [|c path Hc _ IH]; [reflexivity|].
  cbn. rewrite IH. unfold utf8_encode_char.
  destruct (Z.ltb_spec c 0); [lia|].
  destruct (Z.ltb_spec c 128); [reflexivity | lia].
Qed.

Lemma str_encode_surrogate (path : str) (c : Z) :
  c ∈ path -> 0xD800 <= c <= 0xDFFF -> str_encode path = None.
Proof.
  intros Hin Hc. induction path as [|d path IH]; [inversion Hin|].
  apply elem_of_cons in Hin as [<-|Hin]; cbn.
  - unfold utf8_encode_char.
    destruct (Z.ltb_spec c 0); [lia|].
    destruct (Z.ltb_spec c 128); [lia|].
    destruct (Z.ltb_spec c 2048); [lia|].
    destruct (Z.leb_spec 55296 c); [|lia].
    destruct (Z.leb_spec c 57343); [|lia].
    reflexivity.
  - rewrite (IH Hin). now destruct (utf8_encode_char d).
Qed.

(** X1: reading the path field back ([addr.sun_path], which stops at
    the first NUL) after a successful encoding of a path without NUL
    gives exactly the UTF-8 encoding of the path. *)
Theorem sun_path_reads_back (fam : Z) (path : str) (enc : bytes) (a : Sockaddr) :
  str_encode path = Some enc ->
  0 ∉ enc ->
  encode_address fam path = Ok a \/ encode_address_cleared fam path = Ok a ->
  char_array_get (sun_path a) = enc.
Proof.
  intros He Hnul Hok.
  destruct (Nat.lt_ge_cases (length enc) SUN_PATH_MAX) as [Hlt|Hge].
  - destruct (encode_address_short fam path enc He Hlt) as [H1 H2].
    rewrite H1, H2 in Hok.
    assert (a = padded fam enc) as -> by (destruct Hok as [H|H]; now inversion H).
    unfold char_array_get. now rewrite c_str_padded, c_str_no_nul.
  - destruct (encode_address_long fam path enc He Hge) as [H1 H2].
    rewrite H1, H2 in Hok. destruct Hok; discriminate.
Qed.

Lemma sun_path_reads_back_witness :
  exists a,
    encode_address AF_UNIX [47; 116; 109; 112] = Ok a
    /\ char_array_get (sun_path a) = [47; 116; 109; 112].
Proof.
  eexists. split; [reflexivity|].
  apply (sun_path_reads_back AF_UNIX [47; 116; 109; 112]).
  - reflexivity.
  - by_compute.
  - left. reflexivity.
Defined.

(** X2: a NUL character inside the path cuts the address short without
    an error: the path [p ++ NUL ++ q] gets the address of [p]. *)
Theorem embedded_nul_truncates (fam : Z) (p q : str) (ep eq : bytes) :
  str_encode p = Some ep -> 0 ∉ ep ->
  str_encode q = Some eq ->
  (length ep + 1 + length eq < SUN_PATH_MAX)%nat ->
  encode_address fam (p ++ 0 :: q) = Ok (padded fam ep)
  /\ encode_address_cleared fam (p ++ 0 :: q) = Ok (padded fam ep)
  /\ encode_address fam p = Ok (padded fam ep).
Proof.
  intros Hp Hnul Hq Hlen.
  assert (He : str_encode (p ++ 0 :: q) = Some (ep ++ 0 :: eq)).
  { rewrite str_encode_app, Hp. cbn. now rewrite Hq. }
  assert (Hc : c_str (ep ++ 0 :: eq) = ep).
  { clear -Hnul. induction ep as [|b ep IH]; [reflexivity|].
    apply not_elem_of_cons in Hnul as [Hb Hr]. cbn.
    destruct (Z.eqb_spec b 0); [congruence | now rewrite IH]. }
  assert (Hpad : padded fam (ep ++ 0 :: eq) = padded fam ep).
  { unfold padded. now rewrite Hc, (c_str_no_nul ep Hnul). }
  destruct (encode_address_short fam (p ++ 0 :: q) (ep ++ 0 :: eq) He)
    as [H1 H2].
  { rewrite length_app. cbn [length]. lia. }
  rewrite H1, H2, Hpad. split; [reflexivity|]. split; [reflexivity|].
  apply (encode_address_short fam p ep Hp). lia.
Qed.

Lemma embedded_nul_truncates_witness :
  encode_address AF_UNIX ([47; 97] ++ 0 :: [98]) = encode_address AF_UNIX [47; 97].
Proof.
  destruct (embedded_nul_truncates AF_UNIX [47; 97] [98] [47; 97] [98])
    as (H1 & _ & H3).
  - reflexivity.
  - by_compute.
  - reflexivity.
  - cbn. unfold SUN_PATH_MAX. lia.
  - now rewrite H1, H3.
Defined.

(** X3: the limit counts bytes, and a character takes one to four of
    them: a path of at most 26 characters is always accepted, a path of
    108 characters or more is always refused, whatever the characters. *)
Theorem path_limit_in_characters (fam : Z) (path : str) (enc : bytes) :
  str_encode path = Some enc ->
  (length path <= length enc <= 4 * length path)%nat
  /\ ((length path <= 26)%nat ->
      encode_address fam path = Ok (padded fam enc)
      /\ encode_address_cleared fam path = Ok (padded fam enc))
  /\ ((108 <= length path)%nat ->
      encode_address fam path = Raise (ValueError "AF_UNIX path too long")
      /\ encode_address_cleared fam path
         = Raise (ValueError "socket path too long")).
Proof.
  intros He. pose proof (str_encode_length path enc He) as Hlen.
  split; [exact Hlen|]. split.
  - intros Hs. apply (encode_address_short fam path enc He).
    unfold SUN_PATH_MAX. lia.
  - intros Hl. apply (encode_address_long fam path enc He).
    unfold SUN_PATH_MAX. lia.
Qed.

Lemma path_limit_in_characters_witness :
  encode_address AF_UNIX [233; 8364; 128512]
  = Ok (padded AF_UNIX [195; 169; 226; 130; 172; 240; 159; 152; 128]).
Proof.
  destruct (path_limit_in_characters AF_UNIX [233; 8364; 128512]
              [195; 169; 226; 130; 172; 240; 159; 152; 128] eq_refl)
    as (_ & Hs & _).
  apply Hs. cbn. lia.
Defined.

(** X4: for a path of ASCII characters the encoding is the path itself:
    it is accepted exactly when it has at most 107 characters, and the
    buffer then holds the path followed by zeros. *)
Theorem ascii_path_encoding (fam : Z) (path : str) :
  Forall (fun c => 0 < c < 128) path ->
  ((length path < SUN_PATH_MAX)%nat ->
     encode_address fam path
     = Ok {| sun_family := fam mod 65536;
             sun_path := path ++ replicate (SUN_PATH_MAX - length path) 0 |})
  /\ ((SUN_PATH_MAX <= length path)%nat ->
      encode_address fam path = Raise (ValueError "AF_UNIX path too long")).
Proof.
  intros Hascii.
  assert (He : str_encode path = Some path).
  { apply str_encode_ascii. eapply Forall_impl; [exact Hascii|].
    cbn. intros; lia. }
  assert (Hnul : 0 ∉ path).
  { intros Hin. rewrite Forall_forall in Hascii.
    specialize (Hascii 0 Hin). lia. }
  split.
  - intros Hlt. rewrite (proj1 (encode_address_short fam path path He Hlt)).
    unfold padded. now rewrite (c_str_no_nul path Hnul).
  - intros Hge. apply (encode_address_long fam path path He Hge).
Qed.

Lemma ascii_path_encoding_witness :
  encode_address AF_UNIX [47; 116; 109; 112]
  = Ok {| sun_family := 1;
          sun_path := [47; 116; 109; 112] ++ replicate 104 0 |}.
Proof.
  destruct (ascii_path_encoding AF_UNIX [47; 116; 109; 112]) as [Hs _].
  - repeat constructor; lia.
  - apply Hs. cbn. unfold SUN_PATH_MAX. lia.
Defined.

(** X5: a path with a lone surrogate has no UTF-8 encoding: every
    encoding site raises [UnicodeEncodeError], however long the path,
    and the connectors raise it without closing the socket they hold. *)
Theorem surrogate_path_raises_unicode_error (E : Env) (path : str) (c : Z) :
  c ∈ path -> 0xD800 <= c <= 0xDFFF ->
  encode_address (socket_AF_UNIX E) path = Raise UnicodeEncodeError
  /\ encode_address_cleared (socket_AF_UNIX E) path = Raise UnicodeEncodeError
  /\ (forall sock w,
        win_address_step E sock path w = (Raised UnicodeEncodeError, w))
  /\ (forall s w,
        unix_address_step E s path w = (Raised UnicodeEncodeError, w)).
Proof.
  intros Hin Hc. pose proof (str_encode_surrogate path c Hin Hc) as He.
  unfold encode_address, encode_address_cleared, win_address_step,
    unix_address_step. rewrite He. repeat split.
Qed.

Lemma surrogate_path_raises_unicode_error_witness :
  encode_address AF_UNIX [47; 55296] = Raise UnicodeEncodeError.
Proof.
  destruct (surrogate_path_raises_unicode_error env_nominal [47; 55296] 55296)
    as [H _].
  - by_compute.
  - lia.
  - exact H.
Defined.

(** ** [AFUnixStream] and the echo handler *)

Lemma close_open_stream (E : Env) (self : AFUnixStream) (w : world) :
  st_closed self = false ->
  exists w',
    AFUnixStream_close E self w = (Done (mkStream (st_sock self) true), w')
    /\ sockets w' = sockets w ∖ {[st_sock self]}
    /\ files w' = files w
    /\ wsa_events w' = wsa_events w
    /\ tasks w' = tasks w.
Proof.
  intros Ho. unfold AFUnixStream_close. rewrite Ho. cbn [negb].
  run_py. step_py; cbn.
  all: eexists; split; [reflexivity|]; cbn.
  all: repeat split; try reflexivity.
  all: repeat match goal with
       | H : bool_decide _ = false |- _ => apply bool_decide_eq_false in H
       | H : bool_decide _ = true |- _ => apply bool_decide_eq_true in H
       end.
  all: apply set_eq; intros x; rewrite elem_of_difference, elem_of_singleton.
  all: cbn in *.
  all: split; [intros Hx; split; [exact Hx | intros ->; tauto] | tauto].
Qed.

(** X6: [close] on an open stream always returns, with the stream
    closed and its socket handle released, whether or not the shutdown
    fails; nothing else in the world changes.  [__aexit__] does the
    same and then yields once. *)
Theorem close_releases_socket (E : Env) (self : AFUnixStream) (w : world) :
  st_closed self = false ->
  exists w',
    AFUnixStream_close E self w = (Done (mkStream (st_sock self) true), w')
    /\ sockets w' = sockets w ∖ {[st_sock self]}
    /\ files w' = files w
    /\ wsa_events w' = wsa_events w
    /\ AFUnixStream_aexit E self w
       = (Done (mkStream (st_sock self) true), log e_sleep w').
Proof.
  intros Ho.
  destruct (close_open_stream E self w Ho) as (w' & Hc & Hs & Hf & He & _).
  exists w'. repeat (split; [assumption|]).
  unfold AFUnixStream_aexit. rewrite (bind_done _ _ _ _ _ Hc). reflexivity.
Qed.

Lemma close_releases_socket_witness :
  exists w',
    AFUnixStream_close
      (env_with (fun c => match c with c_shutdown => 10057 | _ => 0 end)
                connect_done)
      (mkStream 7 false) (mkWorld ∅ {[7]} ∅ [] [] false [])
    = (Done (mkStream 7 true), w')
    /\ sockets w' = {[7]} ∖ {[7]}.
Proof.
  destruct (close_releases_socket
              (env_with (fun c => match c with c_shutdown => 10057 | _ => 0 end)
                        connect_done)
              (mkStream 7 false) (mkWorld ∅ {[7]} ∅ [] [] false []) eq_refl)
    as (w' & Hc & Hs & _).
  exists w'. split; [exact Hc | exact Hs].
Defined.

(** X7: once a [close] has returned, [sendall] raises [RuntimeError]
    and [recv] returns the empty string, both without any call on the
    socket. *)
Theorem closed_stream_refuses_io (E : Env) (self self' : AFUnixStream)
    (w w' : world) :
  AFUnixStream_close E self w = (Done self', w') ->
  forall data n w2,
    AFUnixStream_sendall E self' data w2
    = (Raised (RuntimeError "sendall on closed AFUnixStream"), w2)
    /\ AFUnixStream_recv E self' n w2 = (Done [], w2).
Proof.
  intros H data n w2.
  pose proof (close_returns_closed E self self' w w' H) as Hc.
  unfold AFUnixStream_sendall, AFUnixStream_recv. rewrite Hc. now split.
Qed.

Lemma closed_stream_refuses_io_witness :
  exists w',
    AFUnixStream_close env_nominal (mkStream 7 false)
      (mkWorld ∅ {[7]} ∅ [] [] false [])
    = (Done (mkStream 7 true), w')
    /\ AFUnixStream_sendall env_nominal (mkStream 7 true) [104; 105] w'
       = (Raised (RuntimeError "sendall on closed AFUnixStream"), w').
Proof.
  assert (exists w', AFUnixStream_close env_nominal (mkStream 7 false)
                       (mkWorld ∅ {[7]} ∅ [] [] false [])
                     = (Done (mkStream 7 true), w')) as [w' Hw']
    by (eexists; vm_compute; reflexivity).
  exists w'. split; [exact Hw'|].
  exact (proj1 (closed_stream_refuses_io env_nominal _ _ _ _ Hw'
                  [104; 105] 0%nat w')).
Defined.

(** X8: however [handle_client] ends (the peer shut down, or [recv] or
    [sendall] raised), the stream's socket has been released; the
    handler itself raises only what the loop raised. *)
Theorem handle_client_always_closes (E : Env) (fuel : nat)
    (stream : AFUnixStream) (w : world) :
  st_closed stream = false ->
  (handle_client E fuel stream w).1 <> Running ->
  (st_sock stream ∉ sockets (handle_client E fuel stream w).2)
  /\ (handle_client E fuel stream w).1
     = (handle_client_loop E fuel stream w).1.
Proof.
  intros Ho. unfold handle_client, try_finally.
  destruct (handle_client_loop E fuel stream w) as [[[]|e|] w1];
    cbn [fst snd]; [| |congruence].
  all: intros _; unfold bind.
  all: destruct (close_open_stream E stream w1 Ho) as (w' & Hc & Hs & _).
  all: rewrite Hc; cbn; split; [|reflexivity].
  all: rewrite Hs; intros [_ Hn]%elem_of_difference.
  all: apply Hn; now apply elem_of_singleton.
Qed.

Lemma handle_client_always_closes_witness :
  7 ∉ sockets (handle_client env_nominal 3 (mkStream 7 false)
                 (mkWorld ∅ {[7]} ∅ [] [] false [])).2.
Proof.
  apply (handle_client_always_closes env_nominal 3 (mkStream 7 false)
           (mkWorld ∅ {[7]} ∅ [] [] false [])).
  - reflexivity.
  - vm_compute. discriminate.
Defined.

Lemma flat_map_seq_shift {A} (f : nat -> list A) (n : nat) :
  flat_map f (seq 1 n) = flat_map (fun k => f (S k)) (seq 0 n).
Proof. rewrite <- seq_shift, flat_map_concat_map, map_map.
       now rewrite <- flat_map_concat_map. Qed.

Lemma handle_client_loop_echoes (E : Env) (stream : AFUnixStream) (n : nat) :
  st_closed stream = false ->
  (forall t, answer E c_sock_recv t = 0) ->
  (forall t, answer E c_sock_sendall t = 0) ->
  forall (fuel : nat) (w : world),
    (forall k, (k < n)%nat -> take 4096 (incoming E (now w + 2 * k)) <> []) ->
    take 4096 (incoming E (now w + 2 * n)) = [] ->
    (n < fuel)%nat ->
    exists w',
      handle_client_loop E fuel stream w = (Done tt, w')
      /\ trace w'
         = trace w
           ++ flat_map (fun k => echo_round E (st_sock stream) (now w + 2 * k))
                       (seq 0 n)
           ++ [e_sock_recv (st_sock stream) 4096 []]
      /\ sockets w' = sockets w.
Proof.
  intros Ho Hrecv Hsend.
  assert (HZ : Z.of_nat 4096 = 4096) by (vm_compute; reflexivity).
  unfold echo_round.
  set (m := 4096%nat) in *.
  induction n as [|n IH]; intros fuel w Hne Heof Hfuel.
  - destruct fuel as [|fuel]; [lia|].
    replace (now w + 2 * 0)%nat with (now w) in Heof by lia.
    cbn [handle_client_loop]. fold m. unfold AFUnixStream_recv. rewrite Ho.
    run_py. rewrite Hrecv. cbn [Z.eqb]. cbn beta iota zeta.
    rewrite Heof, HZ. cbn [fst snd trace log sockets flat_map seq app].
    eexists. split; [reflexivity|]. now split.
  - destruct fuel as [|fuel]; [lia|].
    pose proof (Hne 0%nat ltac:(lia)) as Hd.
    replace (now w + 2 * 0)%nat with (now w) in Hd by lia.
    cbn [handle_client_loop]. fold m.
    unfold AFUnixStream_recv, AFUnixStream_sendall.
    rewrite Ho. run_py. rewrite Hrecv. cbn [Z.eqb]. cbn beta iota zeta.
    destruct (take m (incoming E (now w))) as [|b d] eqn:Hchunk;
      [congruence|].
    cbn beta iota zeta. rewrite Hsend. cbn [Z.eqb]. cbn beta iota zeta.
    rewrite HZ.
    set (w1 := log _ (log _ w)).
    assert (Hnow : now w1 = S (S (now w))) by (unfold w1; now rewrite !now_log).
    destruct (IH fuel w1) as (w' & Hrun & Htr & Hs).
    + intros k Hk. rewrite Hnow.
      replace (S (S (now w)) + 2 * k)%nat with (now w + 2 * S k)%nat by lia.
      apply Hne. lia.
    + rewrite Hnow.
      replace (S (S (now w)) + 2 * n)%nat with (now w + 2 * S n)%nat by lia.
      exact Heof.
    + lia.
    + exists w'. split; [exact Hrun|]. split; [|now rewrite Hs].
      rewrite Htr, Hnow. unfold w1. cbn [trace log].
      rewrite <- !app_assoc.
      cbn [seq flat_map]. rewrite flat_map_seq_shift.
      replace (now w + 2 * 0)%nat with (now w) by lia.
      rewrite Hchunk. cbn [app].
      rewrite (flat_map_ext
                 (fun k => [e_sock_recv (st_sock stream) 4096
                              (take m (incoming E (S (S (now w)) + 2 * k)));
                            e_sock_sendall (st_sock stream)
                              (echo_prefix
                               ++ take m (incoming E (S (S (now w)) + 2 * k)))
                              0])
                 (fun k => [e_sock_recv (st_sock stream) 4096
                              (take m (incoming E (now w + 2 * S k)));
                            e_sock_sendall (st_sock stream)
                              (echo_prefix
                               ++ take m (incoming E (now w + 2 * S k))) 0])).
      * reflexivity.
      * intros k.
        now replace (S (S (now w)) + 2 * k)%nat
          with (now w + 2 * S k)%nat by lia.
Qed.

(** X9: while [recv] and [sendall] succeed, [handle_client] answers the
    chunks it receives one by one, in order, each with [b"echo:"] in
    front, reads again after every answer, and when the peer shuts down
    (an empty chunk) it sends nothing more, returns, and has released
    the socket. *)
Theorem handle_client_echoes (E : Env) (stream : AFUnixStream) (n fuel : nat)
    (w : world) :
  st_closed stream = false ->
  (forall t, answer E c_sock_recv t = 0) ->
  (forall t, answer E c_sock_sendall t = 0) ->
  (forall k, (k < n)%nat -> take 4096 (incoming E (now w + 2 * k)) <> []) ->
  take 4096 (incoming E (now w + 2 * n)) = [] ->
  (n < fuel)%nat ->
  exists w1 w',
    handle_client_loop E fuel stream w = (Done tt, w1)
    /\ trace w1
       = trace w
         ++ flat_map (fun k => echo_round E (st_sock stream) (now w + 2 * k))
                     (seq 0 n)
         ++ [e_sock_recv (st_sock stream) 4096 []]
    /\ handle_client E fuel stream w = (Done tt, w')
    /\ sockets w' = sockets w ∖ {[st_sock stream]}.
Proof.
  intros Ho Hrecv Hsend Hne Heof Hfuel.
  destruct (handle_client_loop_echoes E stream n Ho Hrecv Hsend fuel w
              Hne Heof Hfuel) as (w1 & Hrun & Htr & Hs).
  destruct (close_open_stream E stream w1 Ho) as (w' & Hc & Hs' & _).
  exists w1, w'. split; [exact Hrun|]. split; [exact Htr|].
  unfold handle_client, try_finally. rewrite Hrun. unfold bind.
  rewrite Hc. cbn. split; [reflexivity|]. now rewrite Hs', Hs.
Qed.

Lemma handle_client_echoes_witness :
  let E := mkEnv (fun _ _ => 0)
                 (fun _ => connect_done)
                 (fun t => if (t <? 2)%nat then [104; 105] else [])
                 None true 8 in
  exists w',
    handle_client E 5 (mkStream 7 false) (mkWorld ∅ {[7]} ∅ [] [] false [])
    = (Done tt, w').
Proof.
  intros E.
  destruct (handle_client_echoes E (mkStream 7 false) 1 5
              (mkWorld ∅ {[7]} ∅ [] [] false []))
    as (w1 & w' & _ & _ & Hrun & _).
  - reflexivity.
  - reflexivity.
  - reflexivity.
  - intros k Hk. assert (k = 0%nat) as -> by lia. vm_compute. discriminate.
  - reflexivity.
  - lia.
  - exists w'. exact Hrun.
Defined.

(** ** [AFUnixServerWin]: the loop, the handler, the shutdown *)

Lemma wait_for_handle_ok (E : Env) (ev : Z) (w : world) :
  answer E c_wait_for_handle (now w) = 0 ->
  wait_for_handle E ev w = (Done tt, log (e_wait ev 0) w).
Proof. intros Ha. unfold wait_for_handle. run_py. now rewrite Ha. Qed.

Lemma WSAEnumNetworkEvents_run (E : Env) (s ev : Z) (w : world) :
  WSAEnumNetworkEvents E s ev w
  = (Done (answer E c_WSAEnumNetworkEvents (now w), net_events E (now w)),
     log (e_WSAEnumNetworkEvents s ev (answer E c_WSAEnumNetworkEvents (now w))
            (net_events E (now w))) w).
Proof. reflexivity. Qed.

Lemma sock_fileno_run (h : Z) (w : world) :
  sock_fileno h w
  = (Done (if bool_decide (h ∈ sockets w) then h else -1), w).
Proof. reflexivity. Qed.

(** X10: a wake-up that reports FD_CLOSE ends the loop at once: accept
    is not called, even when FD_ACCEPT is reported too and connections
    are queued; they stay queued. *)
Theorem fd_close_stops_loop (E : Env) (self : AFUnixServerWin) (cb : callback)
    (k n : nat) (w : world) :
  srv_closed self = false ->
  answer E c_wait_for_handle (now w) = 0 ->
  answer E c_WSAEnumNetworkEvents (S (now w)) = 0 ->
  Z.land (lNetworkEvents (net_events E (S (now w)))) FD_CLOSE <> 0 ->
  exists w',
    accept_wakeup E k self cb w = (Done Break, w')
    /\ accept_while E k (S n) self cb w = (Done tt, w')
    /\ pending w' = pending w
    /\ tasks w' = tasks w
    /\ sockets w' = sockets w
    /\ trace w'
       = trace w
         ++ [e_wait (default 0 (srv_accept_event self)) 0;
             e_WSAEnumNetworkEvents
               (if bool_decide (srv_sock self ∈ sockets w)
                then srv_sock self else -1)
               (default 0 (srv_accept_event self)) 0
               (net_events E (S (now w)))].
Proof.
  intros Hopen Hwait Henum Hclose.
  set (ev := default 0 (srv_accept_event self)).
  assert (Hrun : exists w',
             accept_wakeup E k self cb w = (Done Break, w')
             /\ pending w' = pending w /\ tasks w' = tasks w
             /\ sockets w' = sockets w
             /\ trace w'
                = trace w
                  ++ [e_wait ev 0;
                      e_WSAEnumNetworkEvents
                        (if bool_decide (srv_sock self ∈ sockets w)
                         then srv_sock self else -1) ev 0
                        (net_events E (S (now w)))]).
  { unfold accept_wakeup. fold ev.
    rewrite (bind_done _ _ _ _ _ (wait_for_handle_ok E ev w Hwait)).
    rewrite (bind_done _ _ _ _ _ (sock_fileno_run _ _)).
    rewrite (bind_done _ _ _ _ _ (WSAEnumNetworkEvents_run E _ ev _)).
    cbn [fst snd]. rewrite !now_log, Henum.
    rewrite (bind_done _ _ _ _ tt) by reflexivity.
    rewrite (proj2 (Z.eqb_neq _ _) Hclose). cbn [negb].
    eexists. split; [reflexivity|]. cbn.
    repeat split. now rewrite <- app_assoc. }
  destruct Hrun as (w' & Hw & Hrest). exists w'.
  split; [exact Hw|]. split; [|exact Hrest].
  cbn [accept_while]. rewrite Hopen. cbn [negb].
  now rewrite (bind_done _ _ _ _ _ Hw).
Qed.

Lemma fd_close_stops_loop_witness :
  let E := env_with (fun _ => 0)
             {| lNetworkEvents := Z.lor FD_ACCEPT FD_CLOSE;
                iErrorCode := replicate 10 0 |} in
  let w := mkWorld ∅ {[5]} {[9]} [11; 12] [] false [] in
  exists w',
    accept_while E 3 1 (mkServer [47; 115] 100 true None false 5 (Some 9))
      (fun s => Ok (Some (handler_coro (st_sock s)))) w
    = (Done tt, w')
    /\ pending w' = [11; 12].
Proof.
  intros E w.
  destruct (fd_close_stops_loop E
              (mkServer [47; 115] 100 true None false 5 (Some 9))
              (fun s => Ok (Some (handler_coro (st_sock s)))) 3 0 w)
    as (w' & _ & Hrun & Hp & _).
  - reflexivity.
  - reflexivity.
  - reflexivity.
  - vm_compute. discriminate.
  - exists w'. split; [exact Hrun | exact Hp].
Defined.

Lemma server_close_run (E : Env) (self : AFUnixServerWin) (w : world) :
  exists w',
    AFUnixServerWin_close E self w
    = (Done (mkServer (srv_path self) (srv_backlog self)
               (srv_unlink_existing self) (srv_task self) true
               (srv_sock self) None), w')
    /\ sockets w' = sockets w ∖ {[srv_sock self]}
    /\ wsa_events w'
       = match srv_accept_event self with
         | Some ev => if ev =? 0 then wsa_events w else wsa_events w ∖ {[ev]}
         | None => wsa_events w
         end
    /\ files w' ⊆ files w
    /\ (srv_unlink_existing self = false -> files w' = files w)
    /\ tasks w' = tasks w
    /\ pending w' = pending w.
Proof.
  unfold AFUnixServerWin_close. run_py. step_py; cbn.
  all: eexists; (split; [reflexivity|]); cbn.
  all: repeat match goal with
       | H : bool_decide _ = false |- _ => apply bool_decide_eq_false in H
       | H : bool_decide _ = true |- _ => apply bool_decide_eq_true in H
       | H : negb _ = true |- _ => apply negb_true_iff in H
       | H : negb _ = false |- _ => apply negb_false_iff in H
       end.
  all: repeat match goal with
       | H : (?a =? 0) = _ |- context [?a =? 0] => rewrite H
       end.
  all: split;
    [ try reflexivity;
      apply set_eq; intros x; rewrite elem_of_difference, elem_of_singleton;
      cbn in *;
      (split; [intros Hx; split; [exact Hx | intros ->; tauto] | tauto])
    | ].
  all: split; [reflexivity|].
  all: split;
    [ first [ reflexivity
            | intros x [Hx _]%elem_of_difference; exact Hx ]
    | ].
  all: split; [|split; reflexivity].
  all: first [ reflexivity | intros; congruence ].
Qed.

Lemma server_close_unlinks (E : Env) (self : AFUnixServerWin) (enc : bytes)
    (w : world) :
  srv_unlink_existing self = true ->
  str_encode (srv_path self) = Some enc -> 0 ∉ enc ->
  (forall t, answer E c_unlink t = 0) ->
  enc ∉ files (AFUnixServerWin_close E self w).2.
Proof.
  intros Hue He Hnul Hunlink. unfold AFUnixServerWin_close. rewrite Hue.
  set (m1 := try_finally _ _).
  assert (H1 : exists w1, m1 w = (Done tt, w1) /\ files w1 = files w).
  { unfold m1. run_py. step_py; cbn; eexists; split; reflexivity. }
  destruct H1 as (w1 & H1 & Hf1).
  rewrite (bind_done _ _ _ _ _ H1).
  destruct (decide (enc ∈ files w1)) as [Hin|Hout].
  - rewrite (bind_done _ _ w1
               (set_files (fun s => s ∖ {[enc]})
                  (log (e_unlink (srv_path self) 0) w1)) tt).
    + cbn. intros [_ Hn]%elem_of_difference. apply Hn.
      now apply elem_of_singleton.
    + apply try_except_done.
      rewrite (bind_done _ _ _ _ _
                 (os_path_exists_intro (srv_path self) enc w1 He Hnul Hin)).
      now apply os_unlink_ok.
  - rewrite (bind_done _ _ w1 w1 tt); [exact Hout|].
    apply try_except_done. unfold os_path_exists. run_py. rewrite He.
    now rewrite (bool_decide_eq_false_2 _ Hout), andb_false_r.
Qed.

(** X11: [AFUnixServerWin.close] never raises: it returns the server
    marked closed with its event forgotten, the listening socket and
    the event released, no task touched.  The socket file is removed
    when unlink-existing is on and the removal is permitted, and left
    in place when unlink-existing is off. *)
Theorem server_close_releases (E : Env) (self : AFUnixServerWin) (w : world) :
  exists w',
    AFUnixServerWin_close E self w
    = (Done (mkServer (srv_path self) (srv_backlog self)
               (srv_unlink_existing self) (srv_task self) true
               (srv_sock self) None), w')
    /\ sockets w' = sockets w ∖ {[srv_sock self]}
    /\ (forall ev, srv_accept_event self = Some ev -> ev <> 0 ->
        wsa_events w' = wsa_events w ∖ {[ev]})
    /\ tasks w' = tasks w
    /\ files w' ⊆ files w
    /\ (srv_unlink_existing self = false -> files w' = files w)
    /\ (forall enc,
          srv_unlink_existing self = true ->
          str_encode (srv_path self) = Some enc -> 0 ∉ enc ->
          (forall t, answer E c_unlink t = 0) ->
          enc ∉ files w').
Proof.
  destruct (server_close_run E self w)
    as (w' & Hrun & Hs & He & Hf & Hf' & Ht & _).
  exists w'. split; [exact Hrun|]. split; [exact Hs|].
  split.
  { intros ev Hev Hnz. rewrite He, Hev.
    now rewrite (proj2 (Z.eqb_neq _ _) Hnz). }
  split; [exact Ht|]. split; [exact Hf|]. split; [exact Hf'|].
  intros enc Hue Henc Hnul Hunlink.
  pose proof (server_close_unlinks E self enc w Hue Henc Hnul Hunlink) as H.
  now rewrite Hrun in H.
Qed.

(** X12: a server that [close] has returned is inert: its accept loop,
    entered again, ends at once without waiting on the event or calling
    accept, and a second [close] (the socket file being gone, or
    unlink-existing off) changes nothing. *)
Theorem closed_server_is_inert (E : Env) (self : AFUnixServerWin) (w : world) :
  exists self' w',
    AFUnixServerWin_close E self w = (Done self', w')
    /\ (forall k n cb w2, accept_while E k (S n) self' cb w2 = (Done tt, w2))
    /\ (forall fuel cb w2,
          has_proactor E = true ->
          AFUnixServerWin_accept_loop E (S fuel) self' cb w2
          = (Done tt, log (e_WSAResetEvent 0) w2))
    /\ (forall w2,
          srv_sock self ∉ sockets w2 ->
          srv_unlink_existing self = false
          \/ (os_path_exists (srv_path self) w2).1 = Done false ->
          AFUnixServerWin_close E self' w2 = (Done self', w2)).
Proof.
  destruct (server_close_run E self w) as (w' & Hrun & _).
  eexists. exists w'. split; [exact Hrun|].
  split; [reflexivity|]. split.
  - intros fuel cb w2 Hp. unfold AFUnixServerWin_accept_loop. rewrite Hp.
    reflexivity.
  - intros w2 Hout Hfile. unfold AFUnixServerWin_close.
    cbn [srv_sock srv_accept_event srv_unlink_existing srv_path srv_backlog
         srv_task].
    unfold try_finally, sock_close. run_py.
    rewrite (bool_decide_eq_false_2 _ Hout). cbn beta iota zeta.
    destruct Hfile as [Hue|Hex].
    + rewrite Hue. reflexivity.
    + destruct (srv_unlink_existing self); [|reflexivity].
      unfold os_path_exists in Hex. cbn in Hex. injection Hex as Hex.
      run_py. rewrite Hex. reflexivity.
Qed.

Lemma init_postcondition (E : Env) (path : str) (backlog : Z) (ue : bool)
    (w w' : world) (srv : AFUnixServerWin) :
  AFUnixServerWin_init E path backlog ue w = (Done srv, w') ->
  srv_task srv = None
  /\ srv_closed srv = false
  /\ srv_path srv = path
  /\ srv_sock srv ∈ sockets w'
  /\ (exists ev, srv_accept_event srv = Some ev /\ ev <> 0
                 /\ ev ∈ wsa_events w')
  /\ tasks w' = tasks w.
Proof.
  unfold AFUnixServerWin_init. run_py. step_py.
  all: cbn; intros Hres; try discriminate.
  all: inversion Hres; subst; clear Hres; cbn.
  all: repeat match goal with
       | H : (_ =? 0) = false |- _ => apply Z.eqb_neq in H
       end.
  all: repeat split; try reflexivity.
  all: try (apply elem_of_union_l; now apply elem_of_singleton).
  all: eexists; split; [reflexivity|]; split; [assumption|].
  all: apply elem_of_union_l; now apply elem_of_singleton.
Qed.

Lemma init_keeps_tasks (E : Env) (path : str) (backlog : Z) (ue : bool)
    (w : world) :
  tasks (AFUnixServerWin_init E path backlog ue w).2 = tasks w.
Proof. unfold AFUnixServerWin_init. run_py. step_py; reflexivity. Qed.

(** X13: a server that [AFUnixServerWin.__init__] returns owns an open
    listening socket and a live event, is neither started nor closed;
    and [start_unix_server_win] either returns it with exactly one new
    task, its accept loop, or raises what the constructor raised with
    no task created. *)
Theorem start_unix_server_win_one_task (E : Env) (path : str) (backlog : Z)
    (ue : bool) (w : world) :
  (forall srv w',
     AFUnixServerWin_init E path backlog ue w = (Done srv, w') ->
     srv_task srv = None /\ srv_closed srv = false
     /\ srv_sock srv ∈ sockets w'
     /\ exists ev, srv_accept_event srv = Some ev /\ ev ∈ wsa_events w')
  /\ match start_unix_server_win E path backlog ue w with
     | (Done srv, w') =>
         srv_task srv = Some (accept_loop_coro (srv_sock srv))
         /\ tasks w' = tasks w ++ [accept_loop_coro (srv_sock srv)]
         /\ srv_sock srv ∈ sockets w'
     | (Raised e, w') =>
         tasks w' = tasks w
         /\ (AFUnixServerWin_init E path backlog ue w).1 = Raised e
     | (Running, _) => False
     end.
Proof.
  split.
  - intros srv w' H.
    destruct (init_postcondition E path backlog ue w w' srv H)
      as (Ht & Hc & _ & Hs & (ev & Hev & _ & Hin) & _).
    repeat (split; [assumption|]). now exists ev.
  - unfold start_unix_server_win, bind.
    pose proof (init_keeps_tasks E path backlog ue w) as Hk.
    destruct (AFUnixServerWin_init E path backlog ue w) as [[srv|e|] w1] eqn:Hi;
      cbn in Hk.
    + destruct (init_postcondition E path backlog ue w w1 srv Hi)
        as (Ht & _ & _ & Hs & _ & _).
      unfold AFUnixServerWin_start. rewrite Ht. run_py. cbn.
      now rewrite Hk.
    + now split.
    + revert Hi. unfold AFUnixServerWin_init. run_py. step_py; discriminate.
Qed.

(** X14: on an event loop without a proactor, [start_unix_server] of
    [win_unix_asyncio] raises before it touches anything; in
    [win_asyncio_afunix] the constructor and [start] do not look, the
    accept loop raises [RuntimeError] as soon as it runs, before any
    wait, and the connector raises it after the native connect, having
    closed its socket. *)
Theorem missing_proactor_is_reported (E : Env) :
  has_proactor E = false ->
  (forall path w,
     start_unix_server E path w
     = (Raised (RuntimeError
          "This helper requires an asyncio ProactorEventLoop (Windows)."), w))
  /\ (forall fuel self cb w,
        AFUnixServerWin_accept_loop E fuel self cb w
        = (Raised (RuntimeError "This event loop does not expose a proactor."),
           w))
  /\ (forall sock ev w,
        (win_await_step E sock ev w).1
        = Raised (RuntimeError "This event loop does not expose a proactor.")
        /\ (sock ∉ sockets (win_await_step E sock ev w).2)
        /\ Forall (fun e => is_wait e = false)
                  (drop (length (trace w)) (trace (win_await_step E sock ev w).2))).
Proof.
  intros Hp. split; [|split].
  - intros path w. unfold start_unix_server, WindowsUnixServer_init.
    now rewrite Hp.
  - intros fuel self cb w. unfold AFUnixServerWin_accept_loop. now rewrite Hp.
  - intros sock ev w. unfold win_await_step. rewrite Hp. run_py.
    destruct (bool_decide (sock ∈ sockets w)) eqn:Hin; cbn.
    + split; [reflexivity|]. split.
      * intros [_ Hn]%elem_of_difference. apply Hn. now apply elem_of_singleton.
      * rewrite drop_app_length. repeat constructor.
    + apply bool_decide_eq_false in Hin. split; [reflexivity|].
      split; [exact Hin|]. rewrite drop_all. constructor.
Qed.

Lemma missing_proactor_is_reported_witness :
  let E := mkEnv (fun _ _ => 0) (fun _ => connect_done) (fun _ => [])
                 None false 8 in
  start_unix_server E [47; 115] world0
  = (Raised (RuntimeError
       "This helper requires an asyncio ProactorEventLoop (Windows)."), world0).
Proof.
  intros E.
  apply (missing_proactor_is_reported E eq_refl).
Defined.

(** ** [WindowsUnixServer] *)

Section WusStart.

Variable E : Env.
Variables (path : str) (enc : bytes).

Hypothesis coop : cooperative E.
Hypothesis Hpath : str_encode path = Some enc.
Hypothesis Hshort : (length enc < SUN_PATH_MAX)%nat.
Hypothesis Hnul : 0 ∉ enc.

(** From the socket creation to the end of [start], on a world where
    the path is free. *)
Ltac start_tail Hsock Hbind Hlisten :=
  step_with ltac:(apply socket_socket_ok; apply Hsock);
  step_with ltac:(reflexivity);
  rewrite (proj1 (encode_address_short (socket_AF_UNIX E) path enc
                    Hpath Hshort));
  step_with ltac:(reflexivity);
  step_with ltac:(apply sock_fileno_open; cbn; apply elem_of_union_l;
                  now apply elem_of_singleton);
  step_with ltac:(apply ws2_32_bind_free; [|apply Hbind]);
  [ cbn [negb Z.eqb];
    step_with ltac:(reflexivity);
    step_with ltac:(apply sock_listen_ok; apply Hlisten);
    step_with ltac:(reflexivity)
  | rewrite c_str_padded, (c_str_no_nul enc Hnul) ].

Ltac cbn_world :=
  cbn [files tasks sockets wsa_started wsa_events pending trace set_files
       set_sockets set_wsa_events set_pending add_task set_wsa_started log
       wus_path wus_sock wus_task wus_running].

Lemma wus_start_run (self : WindowsUnixServer) (w : world) :
  wus_path self = path ->
  exists srv w' sock,
    WindowsUnixServer_start E self w = (Done srv, w')
    /\ wus_path srv = path
    /\ wus_sock srv = Some sock
    /\ wus_task srv = Some (accept_loop_coro sock)
    /\ tasks w' = tasks w ++ [accept_loop_coro sock]
    /\ sockets w' = {[sock]} ∪ sockets w
    /\ enc ∈ files w'
    /\ wsa_started w' = true
    /\ (enc ∈ files w ->
        e_unlink path 0 ∈ drop (length (trace w)) (trace w')).
Proof.
  intros Hself.
  destruct coop as (Hstart & Hunlink & Hsock & Hbind & Hlisten & Hev & Hsel).
  unfold WindowsUnixServer_start. rewrite Hself.
  step_with ltac:(apply ensure_wsa_started_ok; apply Hstart).
  set (w0 := if wsa_started w then w
             else set_wsa_started true (log (e_WSAStartup 0) w)).
  assert (Hf0 : files w0 = files w) by (unfold w0; now destruct (wsa_started w)).
  assert (Hs0 : sockets w0 = sockets w) by (unfold w0; now destruct (wsa_started w)).
  assert (Hk0 : tasks w0 = tasks w) by (unfold w0; now destruct (wsa_started w)).
  assert (Hw0 : wsa_started w0 = true)
    by (unfold w0; now destruct (wsa_started w) eqn:Hws).
  assert (Ht0 : exists pre, trace w0 = trace w ++ pre).
  { unfold w0. destruct (wsa_started w); cbn;
      [exists []; now rewrite app_nil_r | now eexists]. }
  destruct Ht0 as [pre Ht0].
  destruct (decide (enc ∈ files w)) as [Hin|Hout].
  - step_with ltac:(apply (os_path_exists_intro path enc);
                    [exact Hpath | exact Hnul | rewrite Hf0; exact Hin]).
    step_with ltac:(apply try_except_done; apply (os_unlink_ok E path enc);
                    [exact Hpath | apply Hunlink | rewrite Hf0; exact Hin]).
    start_tail Hsock Hbind Hlisten.
    + eexists. eexists. eexists. split; [reflexivity|].
      cbn_world. rewrite Hk0, Hs0, Hw0, Ht0.
      repeat split.
      * rewrite c_str_padded, (c_str_no_nul enc Hnul).
        apply elem_of_union_l. now apply elem_of_singleton.
      * intros _. rewrite <- !app_assoc, drop_app_length.
        apply elem_of_app. right. apply elem_of_cons. now left.
    + cbn_world. intros [_ Hn]%elem_of_difference. apply Hn.
      now apply elem_of_singleton.
  - step_with ltac:(unfold os_path_exists; run_py; rewrite Hpath, Hf0;
                    rewrite (bool_decide_eq_false_2 _ Hout), andb_false_r;
                    reflexivity).
    step_with ltac:(reflexivity).
    start_tail Hsock Hbind Hlisten.
    + eexists. eexists. eexists. split; [reflexivity|].
      cbn_world. rewrite Hk0, Hs0, Hw0.
      repeat split.
      * rewrite c_str_padded, (c_str_no_nul enc Hnul).
        apply elem_of_union_l. now apply elem_of_singleton.
      * intros Hin. contradiction.
    + cbn_world. now rewrite Hf0.
Qed.

End WusStart.



(** X16: when the operating system cannot create an event, the accept
    loop of [WindowsUnixServer] does not fail: every turn sleeps and
    tries again, so for every bound the loop is still running, has
    accepted nothing and has created no task. *)
Theorem wus_event_failure_polls_forever (E : Env) (self : WindowsUnixServer)
    (cb : stream_callback) (n : nat) (w : world) :
  wus_running self = true ->
  (forall t, answer E c_WSACreateEvent t = 0) ->
  exists w',
    wus_accept_while E n self cb w = (Running, w')
    /\ pending w' = pending w
    /\ tasks w' = tasks w
    /\ sockets w' = sockets w
    /\ trace w'
       = trace w ++ concat (replicate n [e_WSACreateEvent 0; e_sleep]).
Proof.
  intros Hrun Hev. revert w. induction n as [|n IH]; intros w.
  - exists w. cbn. rewrite app_nil_r. now repeat split.
  - cbn [wus_accept_while]. rewrite Hrun.
    assert (Hturn : wus_accept_turn E (default 0 (wus_sock self)) cb w
                    = (Done Continue,
                       log e_sleep (log (e_WSACreateEvent 0) w))).
    { unfold wus_accept_turn, WSACreateEvent. run_py.
      rewrite Hev. reflexivity. }
    rewrite (bind_done _ _ _ _ _ Hturn).
    destruct (IH (log e_sleep (log (e_WSACreateEvent 0) w)))
      as (w' & Hw & Hp & Ht & Hs & Htr).
    exists w'. split; [exact Hw|]. cbn in Hp, Ht, Hs, Htr.
    repeat (split; [assumption|]).
    rewrite Htr. cbn. now rewrite <- !app_assoc.
Qed.

Lemma wus_event_failure_polls_forever_witness :
  exists w',
    wus_accept_while (env_with (fun _ => 0) connect_done) 4
      (mkWUServer [47; 115] (Some 5) true None)
      (fun h => Ok (handler_coro h))
      (mkWorld ∅ {[5]} ∅ [11] [] true [])
    = (Running, w')
    /\ pending w' = [11].
Proof.
  destruct (wus_event_failure_polls_forever (env_with (fun _ => 0) connect_done)
              (mkWUServer [47; 115] (Some 5) true None)
              (fun h => Ok (handler_coro h)) 4
              (mkWorld ∅ {[5]} ∅ [11] [] true []) eq_refl)
    as (w' & Hrun & Hp & _).
  - reflexivity.
  - exists w'. split; [exact Hrun | exact Hp].
Defined.

Lemma wus_turn_keeps_events (E : Env) (serv : Z) (cb : stream_callback)
    (w : world) :
  wsa_events w ⊆ wsa_events (wus_accept_turn E serv cb w).2
  /\ (answer E c_WSACreateEvent (now w) <> 0 ->
      answer E c_WSACreateEvent (now w)
      ∈ wsa_events (wus_accept_turn E serv cb w).2).
Proof.
  unfold wus_accept_turn. run_py. step_py; cbn.
  all: repeat match goal with
       | H : (_ =? 0) = true |- _ => apply Z.eqb_eq in H
       end.
  all: split;
    [ first [ reflexivity | intros x Hx; now apply elem_of_union_r ]
    | intros Hnz; first [ contradiction
                        | apply elem_of_union_l; now apply elem_of_singleton ] ].
Qed.

(** X17: the accept loop of [WindowsUnixServer] creates a new event on
    every turn and never destroys one: no live event disappears over a
    run of the loop, and the event of each turn is still alive when the
    turn ends. *)
Theorem wus_loop_never_closes_events (E : Env) (self : WindowsUnixServer)
    (cb : stream_callback) (fuel : nat) (w : world) :
  wsa_events w ⊆ wsa_events (wus_accept_while E fuel self cb w).2
  /\ (forall serv,
        answer E c_WSACreateEvent (now w) <> 0 ->
        answer E c_WSACreateEvent (now w)
        ∈ wsa_events (wus_accept_turn E serv cb w).2).
Proof.
  split; [|intros serv; apply wus_turn_keeps_events].
  revert w. induction fuel as [|fuel IH]; intros w; cbn [wus_accept_while].
  - reflexivity.
  - destruct (wus_running self); [|reflexivity].
    unfold bind.
    pose proof (proj1 (wus_turn_keeps_events E (default 0 (wus_sock self)) cb w))
      as Hturn.
    destruct (wus_accept_turn E (default 0 (wus_sock self)) cb w)
      as [[[|]|e|] w1]; cbn in Hturn |- *; try exact Hturn.
    intros x Hx. apply IH, Hturn, Hx.
Qed.

Lemma to_c_int_INVALID_SOCKET (E : Env) : to_c_int (INVALID_SOCKET E) = -1.
Proof. unfold INVALID_SOCKET. now destruct (PTR_SIZE E =? 8). Qed.

Lemma now_set_pending (q : list Z) (w : world) : now (set_pending q w) = now w.
Proof. reflexivity. Qed.

Lemma to_c_int_small (h : Z) : - 2 ^ 31 <= h < 2 ^ 31 -> to_c_int h = h.
Proof. intros Hh. unfold to_c_int. rewrite Z.mod_small; lia. Qed.

(** X18: a wake-up of the [WindowsUnixServer] loop that finds nothing
    to accept is harmless, whatever the pointer size: the all-ones
    [INVALID_SOCKET] reads as -1 through the [c_int] return type, the
    turn yields and the loop goes on, with no task created. *)
Theorem wus_spurious_wakeup_is_harmless (E : Env) (serv : Z)
    (cb : stream_callback) (w : world) :
  pending w = [] ->
  answer E c_WSACreateEvent (now w) <> 0 ->
  answer E c_wait_for_handle (S (S (now w))) = 0 ->
  to_c_int (INVALID_SOCKET E) = -1
  /\ exists w',
       wus_accept_turn E serv cb w = (Done Continue, w')
       /\ tasks w' = tasks w
       /\ sockets w' = sockets w
       /\ exists before,
            trace w'
            = trace w ++ before
              ++ [e_accept (if bool_decide (serv ∈ sockets w) then serv else -1)
                    (INVALID_SOCKET E);
                  e_sleep].
Proof.
  intros Hq Hev Hwait. split; [apply to_c_int_INVALID_SOCKET|].
  unfold wus_accept_turn. run_py.
  rewrite (proj2 (Z.eqb_neq _ _) Hev). cbn beta iota zeta.
  rewrite (proj2 (Z.eqb_neq _ _) Hev). cbn beta iota zeta.
  rewrite now_log, now_set_wsa_events, now_log, Hwait.
  cbn [Z.eqb negb]. cbn beta iota zeta.
  cbn [pending log set_wsa_events set_sockets].
  rewrite Hq. cbn beta iota zeta. rewrite to_c_int_INVALID_SOCKET.
  cbn. eexists. split; [reflexivity|].
  cbn [tasks sockets trace log set_wsa_events].
  split; [reflexivity|]. split; [reflexivity|].
  rewrite <- !app_assoc.
  exists [e_WSACreateEvent (answer E c_WSACreateEvent (now w));
          e_WSAEventSelect (if bool_decide (serv ∈ sockets w) then serv else -1)
            (answer E c_WSACreateEvent (now w)) FD_ACCEPT
            (answer E c_WSAEventSelect (S (now w)));
          e_wait (answer E c_WSACreateEvent (now w)) 0;
          e_WSAResetEvent (answer E c_WSACreateEvent (now w))].
  reflexivity.
Qed.

Lemma wus_spurious_wakeup_is_harmless_witness :
  exists w',
    wus_accept_turn env_nominal 5 (fun h => Ok (handler_coro h))
      (mkWorld ∅ {[5]} ∅ [] [] true [])
    = (Done Continue, w')
    /\ tasks w' = [].
Proof.
  destruct (wus_spurious_wakeup_is_harmless env_nominal 5
              (fun h => Ok (handler_coro h))
              (mkWorld ∅ {[5]} ∅ [] [] true []))
    as (_ & w' & Hrun & Ht & _).
  - reflexivity.
  - vm_compute. discriminate.
  - reflexivity.
  - exists w'. split; [exact Hrun | exact Ht].
Defined.

(** ** The connectors *)

Lemma bind_done_inv {A B} (m : M A) (k : A -> M B) (w w' : world) (b : B) :
  (x <- m ;; k x) w = (Done b, w') ->
  exists a w1, m w = (Done a, w1) /\ k a w1 = (Done b, w').
Proof.
  unfold bind. destruct (m w) as [[a|e|] w1]; try discriminate.
  intros H. now exists a, w1.
Qed.

(** A step of the connector that returns leaves the sockets and the
    events as they are. *)
Lemma win_connect_step_done (E : Env) (sock : Z) (addr : Sockaddr)
    (w w' : world) :
  win_connect_step E sock addr w = (Done tt, w') ->
  sockets w' = sockets w /\ wsa_events w' = wsa_events w.
Proof.
  unfold win_connect_step. run_py. step_py.
  all: intros [= <-]; split; reflexivity.
Qed.

Lemma win_await_step_done (E : Env) (sock ev : Z) (w w' : world) :
  win_await_step E sock ev w = (Done tt, w') ->
  has_proactor E = true
  /\ sockets w' = sockets w /\ wsa_events w' = wsa_events w.
Proof.
  unfold win_await_step. run_py. step_py.
  all: intros [= <-]; repeat split; reflexivity.
Qed.

Lemma win_address_step_done (E : Env) (sock : Z) (path : str) (a : Sockaddr)
    (w w' : world) :
  win_address_step E sock path w = (Done a, w') ->
  w' = w
  /\ exists enc, str_encode path = Some enc /\ (length enc < SUN_PATH_MAX)%nat.
Proof.
  unfold win_address_step.
  destruct (str_encode path) as [enc|]; [|discriminate].
  destruct (Nat.leb_spec SUN_PATH_MAX (length enc)) as [|Hlt].
  - run_py. step_py; discriminate.
  - destruct (fill_sun_path _ enc); cbn; [|discriminate].
    intros [= _ <-]. split; [reflexivity|]. now exists enc.
Qed.

(** What a call of [open_unix_connection_win] that returns has gone
    through: the socket [h] was created and is still open in the world
    [w4] the body ends in, the body has added at most the connect event
    [ev], and the [finally] clause closes that event. *)
Lemma open_unix_connection_win_inv (E : Env) (path : str) (w w' : world)
    (s : AFUnixStream) :
  open_unix_connection_win E path w = (Done s, w') ->
  exists h ev w4,
    s = AFUnixStream_init h
    /\ h ∈ sockets w4
    /\ wsa_events w4 ⊆ {[ev]} ∪ wsa_events w
    /\ w' = set_wsa_events (fun x => x ∖ {[ev]}) (log (e_WSACloseEvent ev) w4)
    /\ has_proactor E = true
    /\ exists enc, str_encode path = Some enc /\ (length enc < SUN_PATH_MAX)%nat.
Proof.
  intros Hrun.
  unfold open_unix_connection_win in Hrun.
  apply bind_done_inv in Hrun as (h & w1 & Hsock & Hrun).
  assert (Hw1 : h ∈ sockets w1 /\ wsa_events w1 = wsa_events w).
  { revert Hsock. unfold socket_socket. run_py. step_py; [discriminate|].
    intros [= <- <-]. split; [|reflexivity].
    apply elem_of_union_l, elem_of_singleton. reflexivity. }
  destruct Hw1 as [Hin1 Hev1].
  apply bind_done_inv in Hrun as ([] & w2 & Hblk & Hrun).
  assert (Hw2 : sockets w2 = sockets w1 /\ wsa_events w2 = wsa_events w1)
    by (revert Hblk; unfold sock_setblocking; run_py;
        intros [= <-]; split; reflexivity).
  destruct Hw2 as [Hs2 He2].
  apply bind_done_inv in Hrun as (ev & w3 & Hcreate & Hrun).
  assert (Hw3 : sockets w3 = sockets w2
                /\ wsa_events w3 ⊆ {[ev]} ∪ wsa_events w2).
  { revert Hcreate. unfold WSACreateEvent. run_py. step_py.
    all: intros [= <- <-]; split; [reflexivity|].
    all: cbn [wsa_events set_wsa_events log].
    all: first [ reflexivity | intros x Hx; now apply elem_of_union_r ]. }
  destruct Hw3 as [Hs3 He3].
  destruct (ev =? 0) eqn:Hev0.
  { revert Hrun. run_py. step_py; discriminate. }
  cbn [negb] in Hrun.
  rewrite finally_closes_event in Hrun.
  destruct ((fd <- sock_fileno h ;;
             r <- WSAEventSelect E fd ev (Z.lor FD_CONNECT FD_CLOSE) ;;
             _check_zero E r "WSAEventSelect(FD_CONNECT|FD_CLOSE)" ;;
             addr <- win_address_step E h path ;;
             win_connect_step E h addr ;;
             win_await_step E h ev ;;
             ret (AFUnixStream_init h)) w3) as [[s'|e|] w4] eqn:Hbody;
    try discriminate.
  injection Hrun as -> <-.
  apply bind_done_inv in Hbody as (fd & w5 & Hfd & Hbody).
  assert (w5 = w3) as ->
    by (revert Hfd; unfold sock_fileno; run_py; now intros [= _ <-]).
  apply bind_done_inv in Hbody as (r & w6 & Hsel & Hbody).
  assert (Hw6 : sockets w6 = sockets w3 /\ wsa_events w6 = wsa_events w3)
    by (revert Hsel; unfold WSAEventSelect; run_py;
        intros [= _ <-]; split; reflexivity).
  destruct Hw6 as [Hs6 He6].
  apply bind_done_inv in Hbody as ([] & w7 & Hchk & Hbody).
  assert (w7 = w6) as ->
    by (revert Hchk; unfold _check_zero; run_py; step_py;
        [discriminate | now intros [= <-]]).
  apply bind_done_inv in Hbody as (addr & w8 & Haddr & Hbody).
  apply win_address_step_done in Haddr as (-> & enc & Henc & Hlt).
  apply bind_done_inv in Hbody as ([] & w9 & Hconn & Hbody).
  apply win_connect_step_done in Hconn as [Hs9 He9].
  apply bind_done_inv in Hbody as ([] & w10 & Hawait & Hbody).
  apply win_await_step_done in Hawait as (Hp & Hs10 & He10).
  injection Hbody as <- <-.
  exists h, ev, w10.
  split; [reflexivity|].
  split; [rewrite Hs10, Hs9, Hs6, Hs3, Hs2; exact Hin1|].
  split; [rewrite He10, He9, He6, <- Hev1, <- He2; exact He3|].
  split; [reflexivity|].
  split; [exact Hp|].
  now exists enc.
Qed.

(** X19: when [open_unix_connection_win] returns a stream, the stream is
    not closed, its socket is open, the connect event has been released
    by the [finally] clause, the loop has a proactor and the path fits
    the address. *)
Theorem connect_success_leaves_open_stream (E : Env) (path : str) (w : world)
    (s : AFUnixStream) :
  (open_unix_connection_win E path w).1 = Done s ->
  st_closed s = false
  /\ st_sock s ∈ sockets (open_unix_connection_win E path w).2
  /\ wsa_events (open_unix_connection_win E path w).2 ⊆ wsa_events w
  /\ has_proactor E = true
  /\ exists enc, str_encode path = Some enc /\ (length enc < SUN_PATH_MAX)%nat.
Proof.
  destruct (open_unix_connection_win E path w) as [o w'] eqn:Hrun.
  cbn [fst snd]. intros ->.
  destruct (open_unix_connection_win_inv E path w w' s Hrun)
    as (h & ev & w4 & -> & Hin & Hev & -> & Hp & Henc).
  split; [reflexivity|].
  split; [exact Hin|].
  split.
  { cbn [wsa_events set_wsa_events log].
    intros x [Hx Hn]%elem_of_difference.
    apply Hev, elem_of_union in Hx as [Hx|Hx]; [contradiction | exact Hx]. }
  split; [exact Hp | exact Henc].
Qed.

Lemma connect_success_leaves_open_stream_witness :
  5 ∈ sockets (open_unix_connection_win env_nominal [47; 115] world0).2.
Proof.
  apply (connect_success_leaves_open_stream env_nominal [47; 115] world0
           (AFUnixStream_init 5)).
  reflexivity.
Defined.

(** X20: [ensure_wsa_started] starts Winsock once: after a call that
    returned, the flag is set and a further call returns without any
    native call, leaving the world as it is. *)
Theorem wsa_startup_runs_once (E : Env) (w w' : world) :
  ensure_wsa_started E w = (Done tt, w') ->
  wsa_started w' = true /\ ensure_wsa_started E w' = (Done tt, w').
Proof.
  unfold ensure_wsa_started. run_py.
  destruct (wsa_started w) eqn:Hs.
  - intros [= <-]. rewrite Hs. split; reflexivity.
  - destruct (negb _); [discriminate|].
    intros [= <-]. cbn. split; reflexivity.
Qed.

Lemma wsa_startup_runs_once_witness :
  ensure_wsa_started env_nominal (set_wsa_started true (log (e_WSAStartup 0) world0))
  = (Done tt, set_wsa_started true (log (e_WSAStartup 0) world0)).
Proof.
  apply (wsa_startup_runs_once env_nominal world0). reflexivity.
Defined.

(** X21: when Winsock cannot be started, [open_unix_connection] raises
    before anything else happens: the only native call is [WSAStartup],
    no socket is made, and the flag stays unset, so that the next call
    tries again. *)
Theorem wsa_startup_failure_stops_connect (E : Env) (path : str) (w : world) :
  wsa_started w = false ->
  answer E c_WSAStartup (now w) <> 0 ->
  open_unix_connection E path w
  = (Raised (OSError None "WSAStartup failed"),
     log (e_WSAStartup (answer E c_WSAStartup (now w))) w)
  /\ wsa_started (open_unix_connection E path w).2 = false.
Proof.
  intros Hs Hr.
  assert (Hrun : ensure_wsa_started E w
                 = (Raised (OSError None "WSAStartup failed"),
                    log (e_WSAStartup (answer E c_WSAStartup (now w))) w)).
  { unfold ensure_wsa_started. run_py. rewrite Hs.
    now rewrite (proj2 (Z.eqb_neq _ _) Hr). }
  unfold open_unix_connection. rewrite bind_run, Hrun. cbn [fst snd].
  split; [reflexivity | exact Hs].
Qed.

Lemma wsa_startup_failure_stops_connect_witness :
  sockets (open_unix_connection
             (env_with (fun c => match c with c_WSAStartup => 10091 | _ => 0 end)
                connect_done)
             [47; 115] world0).2 = ∅.
Proof.
  rewrite (proj1 (wsa_startup_failure_stops_connect
                    (env_with (fun c => match c with
                                        | c_WSAStartup => 10091 | _ => 0
                                        end) connect_done)
                    [47; 115] world0 eq_refl ltac:(vm_compute; discriminate))).
  reflexivity.
Defined.


(** X23: [run_client] has no [finally]: the connection it opened is
    closed when the exchange went through, and is still open when the
    message cannot be encoded or when sending or receiving raises. *)
Theorem run_client_closes_only_on_success (E : Env) (msg : str) (w : world)
    (s : AFUnixStream) :
  (open_unix_connection_win E SOCKET_PATH w).1 = Done s ->
  match (run_client E msg w).1 with
  | Done _ => st_sock s ∉ sockets (run_client E msg w).2
  | Raised _ => st_sock s ∈ sockets (run_client E msg w).2
  | Running => False
  end.
Proof.
  intros Hs.
  unfold run_client. generalize 4096%nat. intros n. rewrite bind_run, Hs.
  destruct (open_unix_connection_win E SOCKET_PATH w) as [o w1] eqn:Hrun.
  cbn [fst snd] in Hs |- *. subst o.
  destruct (open_unix_connection_win_inv E SOCKET_PATH w w1 s Hrun)
    as (h & ev & w4 & -> & Hin4 & _ & Hw1 & _).
  assert (Hin : h ∈ sockets w1) by (rewrite Hw1; exact Hin4).
  clear Hrun Hw1 Hin4. unfold AFUnixStream_init.
  unfold AFUnixStream_sendall, AFUnixStream_recv, AFUnixStream_close.
  cbn [st_closed st_sock negb].
  run_py. step_py.
  all: cbn.
  all: try exact Hin.
  all: try (intros [_ Hn]%elem_of_difference;
            apply Hn, elem_of_singleton; reflexivity).
  all: match goal with
       | Hc : bool_decide _ = false |- _ =>
           apply bool_decide_eq_false in Hc; exact Hc
       end.
Qed.

Lemma run_client_closes_only_on_success_witness :
  5 ∉ sockets (run_client env_nominal [104; 105] world0).2.
Proof.
  exact (run_client_closes_only_on_success env_nominal [104; 105] world0
           (AFUnixStream_init 5) eq_refl).
Defined.
